(** * Brother P-Touch P700 driver

    A shallow embedding of [labelprinterkit/printers/brother_pt700.py]: the
    raster-line encoder, the status-packet decoder and the print session of
    the [P700] class, followed by the properties of the driver that its
    specification states.

    Python values are modelled as follows.  A [bytes] object is a list of
    [Byte.byte]; a Python [int] is a [Z] (the bit operations of [Z] are the
    two's-complement ones of Python); a [dict] is a [gmap]; [None] is the
    [None] of [option]; a raised exception is the left injection of a sum.
    The float literals of the tape table (3.5, 6.0, ...) are binary
    fractions and are kept as the rationals they denote. *)

From Stdlib Require Import ZArith QArith_base Lia.
From Stdlib Require Strings.Byte.
From stdpp Require Import base option list gmap strings.
Import Corelib.Init.Byte.

Local Open Scope Z_scope.

(** ** Python values and exceptions *)

Abbreviation bytes := (list byte).

(** A dictionary key, as carried by [KeyError]. *)
Inductive pykey : Type :=
  | KInt (k : Z)
  | KStr (k : string).

Inductive exn : Type :=
  | IOError (msg : string)
  | ValueError (msg : string)
  | KeyError (key : pykey)
  | IndexError
  | OverflowError
  | TypeError
  | StructError
  | DecodeError.

(** A computation that returns a value or raises. *)
Definition res (A : Type) : Type := (exn + A)%type.

#[global] Instance res_ret : MRet res := fun A x => inr x.
#[global] Instance res_bind : MBind res := fun A B f m =>
  match m with
  | inl e => inl e
  | inr x => f x
  end.

Definition raise {A : Type} (e : exn) : res A := inl e.

#[global] Instance byte_eq_dec : EqDecision byte := Strings.Byte.byte_eq_dec.

(** The integer a byte stands for, [0 <= byte_val b < 256]. *)
Definition byte_val (b : byte) : Z := Z.of_N (Strings.Byte.to_N b).

(** The byte of an integer in [0, 256); [x00] outside (never used there). *)
Definition byte_of_Z (z : Z) : byte :=
  default x00 (Strings.Byte.of_N (Z.to_N z)).

(** [int.from_bytes(b, byteorder='big')]. *)
Definition int_from_bytes_big (b : bytes) : Z :=
  fold_left (fun acc x => acc * 256 + byte_val x) b 0.

(** The [n] low bytes of [v], least significant first. *)
Fixpoint int_to_bytes_little (n : nat) (v : Z) : bytes :=
  match n with
  | O => []
  | S k => byte_of_Z (v mod 256) :: int_to_bytes_little k (v / 256)
  end.

(** [v.to_bytes(n, byteorder='big')]: raises [OverflowError] for a negative
    [v] and for one that does not fit in [n] bytes. *)
Definition int_to_bytes_big (n : nat) (v : Z) : res bytes :=
  if v <? 0 then raise OverflowError
  else if 256 ^ Z.of_nat n <=? v then raise OverflowError
  else mret (rev (int_to_bytes_little n v)).

(** [a << b] on Python ints; [b] is [None] when the tape table has no
    margin for the medium. *)
Definition int_lshift (a : Z) (b : option Z) : res Z :=
  match b with
  | None => raise TypeError
  | Some k => if k <? 0 then raise (ValueError "negative shift count")
              else mret (Z.shiftl a k)
  end.

(** [struct.pack("<H", v)]: two bytes, little endian. *)
Definition struct_pack_H_le (v : Z) : res bytes :=
  if (0 <=? v) && (v <=? 65535)
  then mret [byte_of_Z (v mod 256); byte_of_Z (v / 256)]
  else raise StructError.

(** [bool(v)] of an int. *)
Definition int_bool (v : Z) : bool := negb (v =? 0).

(** ** The run-length codec *)

(** The driver imports the [packbits] package, whose code is not among the
    sources.  The module below models it from the specification's words
    (section 4.1: PackBits units, a single-run limit of 128 bytes, a
    decoder that is the inverse of the encoder and rejects a truncated
    run). *)
Module packbits.

(** Modelled from the spec: one unit of the encoded stream, "a repeat-count
    header followed by one repeated byte" or "a literal-count header
    followed by that many literal bytes" (the package's code is missing). *)
Inductive run : Type :=
  | Repeat (n : nat) (b : byte)
  | Literal (bs : bytes).

(** Modelled from the spec: the bytes a unit stands for. *)
Definition expand (r : run) : bytes :=
  match r with
  | Repeat n b => replicate n b
  | Literal bs => bs
  end.

(** Modelled from the spec: the wire form of a unit, with "negative /
    positive header semantics" (PackBits): a repeat run is the header
    [1 - n] (as a signed byte, that is [257 - n] unsigned) and the byte; a
    literal run is the header [len - 1] and the bytes. *)
Definition serialize (r : run) : bytes :=
  match r with
  | Repeat n b => [byte_of_Z (257 - Z.of_nat n); b]
  | Literal bs => byte_of_Z (Z.of_nat (length bs) - 1) :: bs
  end.

(** Modelled from the spec: "the format's single-run limit (128 bytes per
    run)". *)
Definition MAX_RUN : nat := 128.

(** Modelled from the spec: a unit that the format can carry, a repeat run
    of 2 to [MAX_RUN] bytes or a literal run of 1 to [MAX_RUN] bytes. *)
Definition wf (r : run) : Prop :=
  match r with
  | Repeat n _ => (2 <= n <= MAX_RUN)%nat
  | Literal bs => (1 <= length bs <= MAX_RUN)%nat
  end.

(** Modelled from the spec: one more byte put in front of a segmented
    input; it extends the run it meets, or starts a new one when that run
    is full or of another kind. *)
Definition push (b : byte) (rs : list run) : list run :=
  match rs with
  | [] => [Literal [b]]
  | Repeat n c :: rs' =>
      if decide (b = c) then
        if decide (n < MAX_RUN)%nat then Repeat (S n) c :: rs'
        else Literal [b] :: rs
      else Literal [b] :: rs
  | Literal [] :: rs' => Literal [b] :: rs'
  | Literal (c :: cs) :: rs' =>
      if decide (b = c) then
        match cs with
        | [] => Repeat 2 c :: rs'
        | _ :: _ => Repeat 2 c :: Literal cs :: rs'
        end
      else if decide (length (c :: cs) < MAX_RUN)%nat
           then Literal (b :: c :: cs) :: rs'
           else Literal [b] :: rs
  end.

(** Modelled from the spec: the input cut into repeat runs and literal
    runs of at most [MAX_RUN] bytes each ("chunked internally into multiple
    runs"). *)
Definition segment (data : bytes) : list run := foldr push [] data.

(** Modelled from the spec: [packbits.encode] of the [packbits] package,
    which the driver imports and whose code is not among the sources.
    "Each encoded unit is either a repeat-count header followed by one
    repeated byte, or a literal-count header followed by that many
    literal bytes"; longer inputs are "chunked internally into multiple
    runs". *)
Definition encode (data : bytes) : bytes :=
  concat (map serialize (segment data)).

(** Modelled from the spec: what the decoder expects next. *)
Inductive dstate : Type :=
  | Header
  | Copy (k : nat)    (* [k + 1] literal bytes left to copy *)
  | Fill (n : nat).   (* the next byte is repeated [n] times *)

(** Modelled from the spec: the state after a header byte (PackBits: the
    header is a signed byte; [0..127] copies the next [h + 1] bytes,
    [-127..-1] repeats the next byte [1 - h] times, [-128] is skipped). *)
Definition after_header (b : byte) : dstate :=
  let h := byte_val b in
  let h := if 127 <? h then h - 256 else h in
  if 0 <=? h then Copy (Z.to_nat h)
  else if h =? -128 then Header
  else Fill (Z.to_nat (1 - h)).

(** Modelled from the spec: the decoder, one byte at a time; an input that
    ends inside a run is "malformed compressed input (truncated run)". *)
Fixpoint decode_from (st : dstate) (data : bytes) : res bytes :=
  match data with
  | [] =>
      match st with
      | Header => mret []
      | _ => raise DecodeError
      end
  | b :: rest =>
      match st with
      | Header => decode_from (after_header b) rest
      | Copy O => out ← decode_from Header rest; mret (b :: out)
      | Copy (S k) => out ← decode_from (Copy k) rest; mret (b :: out)
      | Fill n => out ← decode_from Header rest; mret (replicate n b ++ out)
      end
  end.

(** Modelled from the spec: [packbits.decode] of the same package, "the
    exact inverse" of [encode]; "malformed compressed input (truncated
    run) fails with a DecodeError". *)
Definition decode (data : bytes) : res bytes := decode_from Header data.

End packbits.

(** ** Tape geometry *)

Record TapeInfo : Type := mkTapeInfo {
  lmargin : option Z;
  printarea : option Z;
  rmargin : option Z;
  width : option Q
}.

(** ** The line encoder *)

(** The first three statements of [encode_line]: the 16-byte raster line
    before compression. *)
Definition encode_line_padded (bitmap_line : bytes) (tape_info : TapeInfo)
  : res bytes :=
  let line_int := int_from_bytes_big bitmap_line in
  line_int ← int_lshift line_int (rmargin tape_info);
  int_to_bytes_big 16 line_int.

Definition encode_line (bitmap_line : bytes) (tape_info : TapeInfo)
  : res bytes :=
  padded ← encode_line_padded bitmap_line tape_info;
  let compressed := packbits.encode padded in
  prefix ← struct_pack_H_le (Z.of_nat (length compressed));
  mret (prefix ++ compressed).

(** ** Tables of the status packet *)

Inductive INFO_OFFSETS : Type :=
  | PRINTHEAD_MARK
  | MODEL_CODE
  | ERROR_1
  | ERROR_2
  | MEDIA_WIDTH
  | MEDIA_TYPE
  | MODE
  | MEDIA_LENGTH
  | STATUS_TYPE
  | PHASE_TYPE
  | PHASE_NUMBER_HI
  | PHASE_NUMBER_LO
  | NOTIFY_NO
  | HARDWARE_SETTINGS.

Definition INFO_OFFSETS_value (i : INFO_OFFSETS) : Z :=
  match i with
  | PRINTHEAD_MARK => 0
  | MODEL_CODE => 4
  | ERROR_1 => 8
  | ERROR_2 => 9
  | MEDIA_WIDTH => 10
  | MEDIA_TYPE => 11
  | MODE => 15
  | MEDIA_LENGTH => 17
  | STATUS_TYPE => 18
  | PHASE_TYPE => 19
  | PHASE_NUMBER_HI => 20
  | PHASE_NUMBER_LO => 21
  | NOTIFY_NO => 22
  | HARDWARE_SETTINGS => 26
  end.

Definition INFO_OFFSETS_name (i : INFO_OFFSETS) : string :=
  match i with
  | PRINTHEAD_MARK => "PRINTHEAD_MARK"
  | MODEL_CODE => "MODEL_CODE"
  | ERROR_1 => "ERROR_1"
  | ERROR_2 => "ERROR_2"
  | MEDIA_WIDTH => "MEDIA_WIDTH"
  | MEDIA_TYPE => "MEDIA_TYPE"
  | MODE => "MODE"
  | MEDIA_LENGTH => "MEDIA_LENGTH"
  | STATUS_TYPE => "STATUS_TYPE"
  | PHASE_TYPE => "PHASE_TYPE"
  | PHASE_NUMBER_HI => "PHASE_NUMBER_HI"
  | PHASE_NUMBER_LO => "PHASE_NUMBER_LO"
  | NOTIFY_NO => "NOTIFY_NO"
  | HARDWARE_SETTINGS => "HARDWARE_SETTINGS"
  end.

(** The members of the enumeration in the order a [for] loop visits them. *)
Definition INFO_OFFSETS_members : list INFO_OFFSETS :=
  [PRINTHEAD_MARK; MODEL_CODE; ERROR_1; ERROR_2; MEDIA_WIDTH; MEDIA_TYPE;
   MODE; MEDIA_LENGTH; STATUS_TYPE; PHASE_TYPE; PHASE_NUMBER_HI;
   PHASE_NUMBER_LO; NOTIFY_NO; HARDWARE_SETTINGS].

Inductive ERRORS : Type :=
  | NO_MEDIA
  | CUTTER_JAM
  | WEAK_BATTERY
  | HV_ADAPTER
  | REPLACE_MEDIA
  | COVER_OPEN
  | OVERHEATING
  | UNKNOWN.

Definition ERRORS_name (e : ERRORS) : string :=
  match e with
  | NO_MEDIA => "NO_MEDIA"
  | CUTTER_JAM => "CUTTER_JAM"
  | WEAK_BATTERY => "WEAK_BATTERY"
  | HV_ADAPTER => "HV_ADAPTER"
  | REPLACE_MEDIA => "REPLACE_MEDIA"
  | COVER_OPEN => "COVER_OPEN"
  | OVERHEATING => "OVERHEATING"
  | UNKNOWN => "UNKNOWN"
  end.

(** [str.lower] on the ASCII letters. *)
Definition ascii_lower (c : Ascii.ascii) : Ascii.ascii :=
  let n := Ascii.N_of_ascii c in
  if ((65 <=? n) && (n <=? 90))%N then Ascii.ascii_of_N (n + 32) else c.

Fixpoint str_lower (s : string) : string :=
  match s with
  | EmptyString => EmptyString
  | String c s' => String (ascii_lower c) (str_lower s')
  end.

(** [MEDIA_WIDTH_INFO]: media ID to tape geometry in dots. *)
Definition MEDIA_WIDTH_INFO : gmap Z TapeInfo :=
  list_to_map
    [(0, mkTapeInfo None None None None);
     (4, mkTapeInfo (Some 52) (Some 24) (Some 52) (Some (Qmake 7 2)));
     (6, mkTapeInfo (Some 48) (Some 32) (Some 48) (Some (Qmake 6 1)));
     (9, mkTapeInfo (Some 39) (Some 50) (Some 39) (Some (Qmake 9 1)));
     (12, mkTapeInfo (Some 29) (Some 70) (Some 29) (Some (Qmake 12 1)));
     (18, mkTapeInfo (Some 8) (Some 112) (Some 8) (Some (Qmake 18 1)));
     (24, mkTapeInfo (Some 0) (Some 128) (Some 0) (Some (Qmake 24 1)))].

(** [ERROR_MASK.items()], in the order of the dictionary display. *)
Definition ERROR_MASK : list (Z * ERRORS) :=
  [(0, NO_MEDIA); (2, CUTTER_JAM); (3, WEAK_BATTERY); (6, HV_ADAPTER);
   (8, REPLACE_MEDIA); (12, COVER_OPEN); (13, OVERHEATING)].

(** ** The status decoder *)

(** Class [Errors]: its [data] dictionary. *)
Record Errors : Type := mkErrors {
  Errors_data : gmap string bool
}.

Definition Errors_init (byte1 byte2 : Z) : Errors :=
  let value := Z.lor byte1 (Z.shiftl byte2 8) in
  mkErrors
    (list_to_map
       (map (fun '(offset, err) =>
               (str_lower (ERRORS_name err),
                int_bool (Z.land value (Z.shiftl 1 offset))))
            ERROR_MASK)).

(** [any(self.data.values())]. *)
Definition Errors_any (e : Errors) : bool :=
  existsb id (map snd (map_to_list (Errors_data e))).

Definition Errors_getattr (e : Errors) (attr : string) : res bool :=
  match Errors_data e !! attr with
  | Some v => mret v
  | None => raise (KeyError (KStr attr))
  end.

(** Class [Status]. *)
Record Status : Type := mkStatus {
  Status_data : gmap string Z;
  Status_errors : Errors;
  Status_tape_info : TapeInfo
}.

(** [d[attr]] on the [data] dictionary, as [__getattr__] does. *)
Definition data_getitem (d : gmap string Z) (attr : string) : res Z :=
  match d !! attr with
  | Some v => mret v
  | None => raise (KeyError (KStr attr))
  end.

Definition Status_getattr (s : Status) (attr : string) : res Z :=
  data_getitem (Status_data s) attr.

(** [msg[i]] for an index that is not negative. *)
Definition bytes_getitem (msg : bytes) (i : Z) : res Z :=
  match msg !! Z.to_nat i with
  | Some b => mret (byte_val b)
  | None => raise IndexError
  end.

(** The dictionary comprehension of [Status.__init__]. *)
Fixpoint Status_fields_of (members : list INFO_OFFSETS) (msg : bytes)
  : res (list (string * Z)) :=
  match members with
  | [] => mret []
  | i :: rest =>
      v ← bytes_getitem msg (INFO_OFFSETS_value i);
      kvs ← Status_fields_of rest msg;
      mret ((str_lower (INFO_OFFSETS_name i), v) :: kvs)
  end.

Definition Status_fields (msg : bytes) : res (gmap string Z) :=
  kvs ← Status_fields_of INFO_OFFSETS_members msg;
  mret (list_to_map kvs).

(** [MEDIA_WIDTH_INFO[k]]. *)
Definition MEDIA_WIDTH_INFO_getitem (k : Z) : res TapeInfo :=
  match MEDIA_WIDTH_INFO !! k with
  | Some t => mret t
  | None => raise (KeyError (KInt k))
  end.

Definition Status_init (msg : bytes) : res Status :=
  data ← Status_fields msg;
  error_1 ← data_getitem data "error_1";
  error_2 ← data_getitem data "error_2";
  let errors := Errors_init error_1 error_2 in
  media_width ← data_getitem data "media_width";
  tape_info ← MEDIA_WIDTH_INFO_getitem media_width;
  mret (mkStatus data errors tape_info).

Definition Status_ready (s : Status) : bool :=
  negb (Errors_any (Status_errors s)).

(** ** The transport, the renderer and the print session *)

(** What the driver reads of a PIL image. *)
Record Image : Type := mkImage {
  Image_mode : string;
  Image_size : Z * Z;
  Image_tobytes : bytes
}.

Inductive Transpose : Type :=
  | ROTATE_270
  | FLIP_TOP_BOTTOM.

(** A label is its [render] method. *)
Record Label : Type := mkLabel {
  Label_render : option Z -> res Image
}.

(** The world the driver acts on: every [write] the backend received, in
    order; the replies the device will hand to the successive [read]s (an
    exhausted script reads as [b""]); and the heights [render] was called
    with.  The backend is taken to accept every write. *)
Record world : Type := mkWorld {
  written : list bytes;
  pending : list bytes;
  rendered : list (option Z)
}.

Definition M (A : Type) : Type := world -> res A * world.

#[global] Instance M_ret : MRet M := fun A x w => (inr x, w).
#[global] Instance M_bind : MBind M := fun A B f m w =>
  match m w with
  | (inl e, w') => (inl e, w')
  | (inr x, w') => f x w'
  end.

Definition lift {A : Type} (r : res A) : M A := fun w => (r, w).

Definition backend_write (b : bytes) : M unit := fun w =>
  (inr tt, mkWorld (written w ++ [b]) (pending w) (rendered w)).

Definition backend_read (n : Z) : M bytes := fun w =>
  match pending w with
  | [] => (inr [], w)
  | reply :: rest => (inr reply, mkWorld (written w) rest (rendered w))
  end.

Definition render_call (label : Label) (height : option Z) : M Image :=
  fun w =>
    (Label_render label height,
     mkWorld (written w) (pending w) (rendered w ++ [height])).

(** A [for] loop over a list. *)
Fixpoint for_each {A : Type} (l : list A) (body : A -> M unit) : M unit :=
  match l with
  | [] => mret tt
  | x :: rest => body x;; for_each rest body
  end.

(** [range(0, count)]. *)
Definition range0 (count : Z) : list Z :=
  map Z.of_nat (seq 0 (Z.to_nat count)).

(** [ceil(a / 8)] for an int [a]. *)
Definition ceil_div8 (a : Z) : Z := (a + 7) / 8.

Fixpoint batch_chunks (fuel : nat) (b : bytes) (size : nat) : list bytes :=
  match fuel with
  | O => []
  | S fuel' =>
      match take size b with
      | [] => []
      | chunk => chunk :: batch_chunks fuel' (drop size b) size
      end
  end.

(** [list(batch_iter_bytes(b, size))]: [islice] refuses a negative size;
    the iteration stops at the first empty chunk. *)
Definition batch_iter_bytes (b : bytes) (size : Z) : res (list bytes) :=
  if size <? 0
  then raise (ValueError "Stop argument for islice() must be None or an int")
  else mret (batch_chunks (S (length b)) b (Z.to_nat size)).

(** The command byte strings of the session. *)
Definition CMD_INVALIDATE : bytes := replicate 100 x00.
Definition CMD_INITIALIZE : bytes := [x1b; x40].
Definition CMD_STATUS_REQUEST : bytes := [x1b; x69; x53].
Definition CMD_DYNAMIC_MODE : bytes := [x1b; x69; x61; x01].
Definition CMD_PRINT_INFORMATION : bytes :=
  [x1b; x69; x7a; x86; x01; x0c; x00; x00; x00; x00; x00; x00].
Definition CMD_AUTOCUT : bytes := [x1b; x69; x4d; x40].
Definition CMD_CUT_EVERY : bytes := [x1b; x69; x41; x01].
Definition CMD_ADVANCED_MODE : bytes := [x1b; x69; x4b; x08].
Definition CMD_MARGIN : bytes := [x1b; x69; x64; x0e; x00].
Definition CMD_COMPRESSION : bytes := [x4d; x02].
Definition RASTER_MARK : byte := x47.
Definition CMD_END_PAGE : bytes := [x5a].
Definition CMD_FORM_FEED : bytes := [x0c].
Definition CMD_END_JOB : bytes := [x1a].

Module P700.
Section driver.

(** PIL's [Image.transpose] and [ImageChops.invert]. *)
Variable Image_transpose : Transpose -> Image -> Image.
Variable ImageChops_invert : Image -> Image.

Definition reset : M unit :=
  backend_write CMD_INVALIDATE;;
  backend_write CMD_INITIALIZE.

Definition get_status : M Status :=
  reset;;
  backend_write CMD_STATUS_REQUEST;;
  data ← backend_read 32;
  match data with
  | [] => lift (raise (IOError "No Response from printer"))
  | _ :: _ =>
      if (length data <? 32)%nat
      then lift (raise (IOError "Invalid Response from printer"))
      else lift (Status_init data)
  end.

Definition _debug_status : M unit :=
  data ← backend_read 32;
  match data with
  | [] => mret tt
  | _ :: _ => lift (Status_init data);; mret tt
  end.

(** [get_status().tape_info.width]. *)
Definition get_label_width : M (option Q) :=
  status ← get_status;
  mret (width (Status_tape_info status)).

Definition raster_line (status : Status) (line : bytes) : M unit :=
  chunk ← lift (encode_line line (Status_tape_info status));
  backend_write (RASTER_MARK :: chunk).

(** The body of the page loop of [_raw_print]. *)
Definition print_page (status : Status) (document : list bytes)
    (count : Z) (i : Z) : M unit :=
  backend_write CMD_DYNAMIC_MODE;;
  _debug_status;;
  backend_write CMD_PRINT_INFORMATION;;
  (if i =? 0 then backend_write CMD_PRINT_INFORMATION else mret tt);;
  backend_write CMD_AUTOCUT;;
  _debug_status;;
  backend_write CMD_CUT_EVERY;;
  backend_write CMD_ADVANCED_MODE;;
  _debug_status;;
  backend_write CMD_MARGIN;;
  _debug_status;;
  backend_write CMD_COMPRESSION;;
  _debug_status;;
  for_each document (raster_line status);;
  backend_write CMD_END_PAGE;;
  (if i <? count - 1 then backend_write CMD_FORM_FEED else mret tt).

Definition _raw_print (status : Status) (document : list bytes)
    (count : Z) : M unit :=
  reset;;
  for_each (range0 count) (print_page status document count);;
  _debug_status;;
  backend_write CMD_END_JOB;;
  _debug_status.

Definition print_label (label : Label) : M unit :=
  status ← get_status;
  if negb (Status_ready status)
  then lift (raise (IOError "Printer is not ready"))
  else
    img ← render_call label (printarea (Status_tape_info status));
    if negb (String.eqb (Image_mode img) "1")
    then lift (raise (ValueError "render output has invalid mode '1'"))
    else
      let img :=
        Image_transpose FLIP_TOP_BOTTOM (Image_transpose ROTATE_270 img) in
      let img := ImageChops_invert img in
      document ← lift (batch_iter_bytes (Image_tobytes img)
                         (ceil_div8 (Image_size img).1));
      _raw_print status document 1.

(** Every line is encoded and the result dropped. *)
Definition _dummy_print (status : Status) (document : list bytes) : M unit :=
  for_each document
    (fun line => lift (encode_line line (Status_tape_info status));; mret tt).

End driver.
End P700.

(** ** Definitions used to state the properties *)

(** The sentinel entry of the tape table (media code 0). *)
Definition NO_TAPE : TapeInfo := mkTapeInfo None None None None.

(** The 18 mm and 24 mm entries of the tape table. *)
Definition tape_18mm : TapeInfo :=
  mkTapeInfo (Some 8) (Some 112) (Some 8) (Some (Qmake 18 1)).

Definition tape_24mm : TapeInfo :=
  mkTapeInfo (Some 0) (Some 128) (Some 0) (Some (Qmake 24 1)).

(** The flags of [Errors(byte1, byte2)] as bits of the combined value, one
    per entry of [ERROR_MASK]. *)
Definition error_flags (value : Z) : gmap string bool :=
  list_to_map
    [("no_media"%string, Z.testbit value 0);
     ("cutter_jam"%string, Z.testbit value 2);
     ("weak_battery"%string, Z.testbit value 3);
     ("hv_adapter"%string, Z.testbit value 6);
     ("replace_media"%string, Z.testbit value 8);
     ("cover_open"%string, Z.testbit value 12);
     ("overheating"%string, Z.testbit value 13)].

(** The dictionary that [Status.__init__] builds from a reply of at least
    27 bytes, written out field by field. *)
Definition status_fields (msg : bytes) : gmap string Z :=
  let at_ (i : nat) := byte_val (nth i msg x00) in
  list_to_map
    [("printhead_mark"%string, at_ 0%nat); ("model_code"%string, at_ 4%nat);
     ("error_1"%string, at_ 8%nat); ("error_2"%string, at_ 9%nat);
     ("media_width"%string, at_ 10%nat); ("media_type"%string, at_ 11%nat);
     ("mode"%string, at_ 15%nat); ("media_length"%string, at_ 17%nat);
     ("status_type"%string, at_ 18%nat); ("phase_type"%string, at_ 19%nat);
     ("phase_number_hi"%string, at_ 20%nat);
     ("phase_number_lo"%string, at_ 21%nat);
     ("notify_no"%string, at_ 22%nat);
     ("hardware_settings"%string, at_ 26%nat)].

(** The reply that the next [read] returns. *)
Definition next_reply (w : world) : bytes :=
  match pending w with
  | [] => []
  | reply :: _ => reply
  end.

(** [w'] is [w] after the writes [l], with nothing rendered in between. *)
Definition wrote (w w' : world) (l : list bytes) : Prop :=
  written w' = written w ++ l /\ rendered w' = rendered w.

(** A command that, while the device sends nothing, returns and leaves the
    device silent. *)
Definition runs_quietly (m : M unit) : Prop :=
  forall w, pending w = [] ->
    exists w', m w = (inr tt, w') /\ pending w' = [].

(** The writes of one page as the specification orders them: dynamic mode,
    print information (a second time on the first page only), autocut, cut
    every page, advanced mode, margin, compression mode, the raster lines,
    the end of the page. *)
Definition page_writes (first : bool) (rasters : list bytes) : list bytes :=
  [CMD_DYNAMIC_MODE; CMD_PRINT_INFORMATION] ++
  (if first then [CMD_PRINT_INFORMATION] else []) ++
  [CMD_AUTOCUT; CMD_CUT_EVERY; CMD_ADVANCED_MODE; CMD_MARGIN;
   CMD_COMPRESSION] ++
  rasters ++ [CMD_END_PAGE].

(** The writes of a job of [copies] pages as the specification orders
    them: the reset, the first page, a form feed before every further page,
    the end of the job. *)
Definition session_writes (copies : nat) (rasters : list bytes)
  : list bytes :=
  [CMD_INVALIDATE; CMD_INITIALIZE] ++
  match copies with
  | O => []
  | S more =>
      page_writes true rasters ++
      concat (replicate more (CMD_FORM_FEED :: page_writes false rasters))
  end ++
  [CMD_END_JOB].

(** The writes of the body of the page loop for the index [i], form feed
    included. *)
Definition page_log (count i : Z) (rasters : list bytes) : list bytes :=
  page_writes (i =? 0) rasters ++
  (if i <? count - 1 then [CMD_FORM_FEED] else []).

(** [pat] is at the start of [s]. *)
Fixpoint starts_with (pat s : bytes) : bool :=
  match pat, s with
  | [], _ => true
  | _ :: _, [] => false
  | p :: pat', x :: s' => bool_decide (p = x) && starts_with pat' s'
  end.

(** The number of places of the byte stream [s] at which [pat] occurs. *)
Fixpoint occurrences (pat s : bytes) : nat :=
  match s with
  | [] => 0
  | _ :: rest =>
      ((if starts_with pat s then 1 else 0) + occurrences pat rest)%nat
  end.

(** The bytes that a one-copy job sends before its first raster line. *)
Definition job_head : bytes :=
  concat [CMD_INVALIDATE; CMD_INITIALIZE; CMD_DYNAMIC_MODE;
          CMD_PRINT_INFORMATION; CMD_PRINT_INFORMATION; CMD_AUTOCUT;
          CMD_CUT_EVERY; CMD_ADVANCED_MODE; CMD_MARGIN; CMD_COMPRESSION].

(** How often a command was written. *)
Definition count_writes (cmd : bytes) (log : list bytes) : nat :=
  length (filter (fun b => b = cmd) log).

(** Example replies of 32 bytes: 24 mm tape and no error; 24 mm tape and
    the no-media bit; the media code 99. *)
Definition reply_24mm : bytes :=
  replicate 10 x00 ++ [x18] ++ replicate 21 x00.

Definition reply_no_media : bytes :=
  replicate 8 x00 ++ [x01; x00; x18] ++ replicate 21 x00.

Definition reply_code_99 : bytes :=
  replicate 10 x00 ++ [x63] ++ replicate 21 x00.

(** The statuses that [reply_24mm] and [reply_no_media] decode to. *)
Definition status_24mm : Status :=
  mkStatus (status_fields reply_24mm) (Errors_init 0 0) tape_24mm.

Definition status_no_media : Status :=
  mkStatus (status_fields reply_no_media) (Errors_init 1 0) tape_24mm.

(** A world in which nothing was written and the device is silent. *)
Definition silent_world : world := mkWorld [] [] [].

(** A label that renders a 1-bit image of 8 by 1 dots. *)
Definition blank_label : Label :=
  mkLabel (fun _ => inr (mkImage "1" (8, 1) [x00])).



Definition STATUS_OFFSETS : list nat :=
  [0; 4; 8; 9; 10; 11; 15; 17; 18; 19; 20; 21; 22; 26]%nat.

(** The media codes of [MEDIA_WIDTH_INFO]. *)
Definition MEDIA_CODES : list Z := [0; 4; 6; 9; 12; 18; 24].

(** The commands that open the first page of a job, up to the compression
    mode. *)
Definition FIRST_PAGE_HEAD : list bytes :=
  [CMD_DYNAMIC_MODE; CMD_PRINT_INFORMATION; CMD_PRINT_INFORMATION;
   CMD_AUTOCUT; CMD_CUT_EVERY; CMD_ADVANCED_MODE; CMD_MARGIN;
   CMD_COMPRESSION].

(** The image that [print_label] takes its rows from: the rendered image
    rotated, flipped and inverted. *)
Definition print_image (Image_transpose : Transpose -> Image -> Image)
    (ImageChops_invert : Image -> Image) (img : Image) : Image :=
  ImageChops_invert
    (Image_transpose FLIP_TOP_BOTTOM (Image_transpose ROTATE_270 img)).

(** A label that renders an image of another mode than "1". *)
Definition grey_label : Label :=
  mkLabel (fun _ => inr (mkImage "L" (8, 1) [x00])).

(** An example reply of 32 bytes with the media code 0 and no error. *)
Definition reply_no_tape : bytes := replicate 32 x00.

(** * Properties *)

(** ** Bytes and integers *)

Lemma byte_val_range (b : byte) : 0 <= byte_val b < 256.
Proof.
  unfold byte_val. pose proof (Strings.Byte.to_N_bounded b). lia.
Qed.

Lemma byte_of_val (b : byte) : byte_of_Z (byte_val b) = b.
Proof.
  unfold byte_of_Z, byte_val.
  rewrite N2Z.id, Strings.Byte.of_to_N. reflexivity.
Qed.

Lemma byte_val_of (z : Z) : 0 <= z < 256 -> byte_val (byte_of_Z z) = z.
Proof.
  intros Hz. unfold byte_of_Z, byte_val.
  destruct (Strings.Byte.of_N (Z.to_N z)) as [b|] eqn:E.
  - apply Strings.Byte.to_of_N in E. simpl. rewrite E. lia.
  - apply Strings.Byte.of_N_None_iff in E. lia.
Qed.

(** ** The codec *)

Section packbits_facts.
Import packbits.

Ltac forall_runs :=
  repeat match goal with
         | |- Forall _ (_ :: _) => constructor
         | |- Forall _ [] => constructor
         end.

Lemma push_wf b rs : Forall wf rs -> Forall wf (push b rs).
Proof.
  intros H. destruct H as [|r rs Hr Hrs]; simpl.
  - forall_runs. simpl. unfold MAX_RUN. lia.
  - destruct r as [n c|[|c cs]]; simpl in Hr; unfold MAX_RUN in *.
    + repeat case_decide; forall_runs; simpl; unfold MAX_RUN;
        try assumption; lia.
    + lia.
    + repeat case_decide; destruct cs; forall_runs; simpl in *;
        unfold MAX_RUN; try assumption; lia.
Qed.

Lemma push_expand b rs :
  concat (map expand (push b rs)) = b :: concat (map expand rs).
Proof.
  destruct rs as [|[n c|[|c cs]] rs]; simpl; try reflexivity.
  - repeat case_decide; subst; reflexivity.
  - repeat case_decide; subst; destruct cs; reflexivity.
Qed.

Lemma segment_wf data : Forall wf (segment data).
Proof.
  induction data as [|b data IH]; simpl.
  - constructor.
  - apply push_wf, IH.
Qed.

Lemma segment_expand data : concat (map expand (segment data)) = data.
Proof.
  induction data as [|b data IH]; simpl.
  - reflexivity.
  - rewrite push_expand. f_equal. exact IH.
Qed.

Lemma after_header_repeat n :
  (2 <= n <= MAX_RUN)%nat ->
  after_header (byte_of_Z (257 - Z.of_nat n)) = Fill n.
Proof.
  unfold MAX_RUN. intros Hn. unfold after_header.
  rewrite byte_val_of by lia.
  destruct (127 <? 257 - Z.of_nat n) eqn:E1; [|lia].
  destruct (0 <=? 257 - Z.of_nat n - 256) eqn:E2; [lia|].
  destruct (257 - Z.of_nat n - 256 =? -128) eqn:E3; [lia|].
  f_equal. lia.
Qed.

Lemma after_header_literal k :
  (k < MAX_RUN)%nat -> after_header (byte_of_Z (Z.of_nat k)) = Copy k.
Proof.
  unfold MAX_RUN. intros Hk. unfold after_header.
  rewrite byte_val_of by lia.
  destruct (127 <? Z.of_nat k) eqn:E1; [lia|].
  destruct (0 <=? Z.of_nat k) eqn:E2; [|lia].
  f_equal. lia.
Qed.

Lemma decode_copy b bs tail :
  decode_from (Copy (length bs)) (b :: bs ++ tail) =
  out ← decode_from Header tail; mret (b :: bs ++ out).
Proof.
  revert b. induction bs as [|c bs IH]; intros b.
  - reflexivity.
  - change (decode_from (Copy (length (c :: bs))) (b :: (c :: bs) ++ tail))
      with (out ← decode_from (Copy (length bs)) (c :: bs ++ tail);
            mret (b :: out)).
    rewrite IH. destruct (decode_from Header tail); reflexivity.
Qed.

Lemma decode_header h rest :
  decode_from Header (h :: rest) = decode_from (after_header h) rest.
Proof. reflexivity. Qed.

Lemma decode_serialize r tail :
  wf r ->
  decode_from Header (serialize r ++ tail) =
  out ← decode_from Header tail; mret (expand r ++ out).
Proof.
  intros Hr. destruct r as [n b|[|b bs]]; simpl in Hr.
  - change (serialize (Repeat n b) ++ tail)
      with (byte_of_Z (257 - Z.of_nat n) :: b :: tail).
    rewrite decode_header, after_header_repeat by exact Hr. reflexivity.
  - lia.
  - change (serialize (Literal (b :: bs)) ++ tail)
      with (byte_of_Z (Z.of_nat (length (b :: bs)) - 1) :: b :: bs ++ tail).
    replace (Z.of_nat (length (b :: bs)) - 1) with (Z.of_nat (length bs))
      by (simpl length; lia).
    rewrite decode_header, after_header_literal by lia.
    apply decode_copy.
Qed.

Lemma decode_runs rs :
  Forall wf rs ->
  decode (concat (map serialize rs)) = inr (concat (map expand rs)).
Proof.
  unfold decode. induction 1 as [|r rs Hr _ IH]; simpl.
  - reflexivity.
  - rewrite decode_serialize by exact Hr. rewrite IH. reflexivity.
Qed.

Lemma decode_encode data : decode (encode data) = inr data.
Proof.
  unfold encode. rewrite decode_runs by apply segment_wf.
  rewrite segment_expand. reflexivity.
Qed.

Lemma serialize_length r :
  wf r -> (length (serialize r) <= 2 * length (expand r))%nat.
Proof.
  destruct r as [n b|bs]; simpl; intros H.
  - rewrite length_replicate. lia.
  - lia.
Qed.

Lemma encode_length data : (length (encode data) <= 2 * length data)%nat.
Proof.
  unfold encode. rewrite <- (segment_expand data) at 2.
  induction (segment_wf data) as [|r rs Hr _ IH]; simpl.
  - lia.
  - rewrite !length_app. pose proof (serialize_length r Hr). lia.
Qed.

End packbits_facts.

(** ** Big-endian integers *)

Lemma int_from_bytes_big_snoc b x :
  int_from_bytes_big (b ++ [x]) = int_from_bytes_big b * 256 + byte_val x.
Proof. unfold int_from_bytes_big. rewrite fold_left_app. reflexivity. Qed.

Lemma int_from_bytes_big_range b :
  0 <= int_from_bytes_big b < 256 ^ Z.of_nat (length b).
Proof.
  induction b as [|x b IH] using rev_ind.
  - simpl. unfold int_from_bytes_big. simpl. lia.
  - rewrite int_from_bytes_big_snoc, length_app. simpl length.
    replace (Z.of_nat (length b + 1)) with (Z.succ (Z.of_nat (length b)))
      by lia.
    rewrite Z.pow_succ_r by lia.
    pose proof (byte_val_range x). lia.
Qed.

Lemma int_to_bytes_little_length n v : length (int_to_bytes_little n v) = n.
Proof.
  revert v. induction n as [|n IH]; intros v; simpl; [|rewrite IH]; reflexivity.
Qed.

Lemma int_to_bytes_little_value n v :
  0 <= v ->
  int_from_bytes_big (rev (int_to_bytes_little n v)) = v mod 256 ^ Z.of_nat n.
Proof.
  revert v. induction n as [|n IH]; intros v Hv.
  - simpl. rewrite Z.mod_1_r. reflexivity.
  - cbn [int_to_bytes_little rev]. rewrite int_from_bytes_big_snoc.
    rewrite IH by (apply Z.div_pos; lia).
    rewrite byte_val_of by (apply Z.mod_pos_bound; lia).
    replace (Z.of_nat (S n)) with (Z.succ (Z.of_nat n)) by lia.
    rewrite Z.pow_succ_r by lia.
    rewrite (Z.rem_mul_r v 256 (256 ^ Z.of_nat n)) by lia. lia.
Qed.

Lemma int_to_bytes_little_from b :
  rev (int_to_bytes_little (length b) (int_from_bytes_big b)) = b.
Proof.
  induction b as [|x b IH] using rev_ind.
  - reflexivity.
  - rewrite length_app, Nat.add_comm. cbn [length Nat.add].
    cbn [int_to_bytes_little rev].
    rewrite int_from_bytes_big_snoc.
    pose proof (byte_val_range x) as Hx.
    replace ((int_from_bytes_big b * 256 + byte_val x) mod 256)
      with (byte_val x)
      by (rewrite Z.add_comm, Z.mod_add by lia; symmetry;
          apply Z.mod_small; lia).
    replace ((int_from_bytes_big b * 256 + byte_val x) / 256)
      with (int_from_bytes_big b)
      by (rewrite Z.add_comm, Z.div_add by lia;
          rewrite (Z.div_small (byte_val x)) by lia; lia).
    rewrite IH, byte_of_val. reflexivity.
Qed.

(** A byte string is determined by its length and its big-endian value. *)
Lemma int_from_bytes_big_inj p q :
  length p = length q ->
  int_from_bytes_big p = int_from_bytes_big q -> p = q.
Proof.
  intros Hl Hv.
  rewrite <- (int_to_bytes_little_from p), <- (int_to_bytes_little_from q).
  rewrite Hl, Hv. reflexivity.
Qed.

Lemma int_from_bytes_big_cons x b :
  int_from_bytes_big (x :: b) =
  byte_val x * 256 ^ Z.of_nat (length b) + int_from_bytes_big b.
Proof.
  revert x. induction b as [|y b IH] using rev_ind; intros x.
  - unfold int_from_bytes_big. simpl. lia.
  - rewrite app_comm_cons, !int_from_bytes_big_snoc, IH, length_app.
    simpl length.
    replace (Z.of_nat (length b + 1)) with (Z.succ (Z.of_nat (length b)))
      by lia.
    rewrite Z.pow_succ_r by lia. lia.
Qed.

Lemma int_from_bytes_big_zeros n b :
  int_from_bytes_big (replicate n x00 ++ b) = int_from_bytes_big b.
Proof.
  induction n as [|n IH]; [reflexivity|].
  cbn [replicate app]. rewrite int_from_bytes_big_cons, IH.
  change (byte_val x00) with 0. lia.
Qed.

Lemma int_from_bytes_big_ones n :
  int_from_bytes_big (replicate n xff) = Z.ones (8 * Z.of_nat n).
Proof.
  rewrite Z.ones_equiv.
  induction n as [|n IH]; [reflexivity|].
  cbn [replicate]. rewrite int_from_bytes_big_cons, IH, length_replicate.
  change (byte_val xff) with 255.
  replace (8 * Z.of_nat (S n)) with (8 * Z.of_nat n + 8) by lia.
  rewrite Z.pow_add_r by lia.
  replace (256 ^ Z.of_nat n) with (2 ^ (8 * Z.of_nat n))
    by (rewrite Z.pow_mul_r by lia; reflexivity).
  change (2 ^ 8) with 256. lia.
Qed.

Lemma int_to_bytes_big_ok n v :
  0 <= v < 256 ^ Z.of_nat n ->
  exists b, int_to_bytes_big n v = inr b /\ length b = n /\
            int_from_bytes_big b = v.
Proof.
  intros Hv. unfold int_to_bytes_big.
  destruct (v <? 0) eqn:E1; [lia|].
  destruct (256 ^ Z.of_nat n <=? v) eqn:E2; [lia|].
  eexists. split; [reflexivity|]. split.
  - rewrite length_rev. apply int_to_bytes_little_length.
  - rewrite int_to_bytes_little_value by lia. apply Z.mod_small. lia.
Qed.

Lemma int_to_bytes_big_inv n v b :
  int_to_bytes_big n v = inr b ->
  0 <= v < 256 ^ Z.of_nat n /\ length b = n /\ int_from_bytes_big b = v.
Proof.
  intros H.
  assert (Hv : 0 <= v < 256 ^ Z.of_nat n).
  { unfold int_to_bytes_big in H.
    destruct (v <? 0) eqn:E1; [discriminate|].
    destruct (256 ^ Z.of_nat n <=? v) eqn:E2; [discriminate|]. lia. }
  split; [exact Hv|].
  destruct (int_to_bytes_big_ok n v Hv) as (b' & Hb' & Hl & Hval).
  rewrite H in Hb'. injection Hb' as ->. auto.
Qed.

(** ** The line encoder *)

Lemma encode_line_padded_inv line tape padded :
  encode_line_padded line tape = inr padded ->
  exists r, rmargin tape = Some r /\ 0 <= r /\
    Z.shiftl (int_from_bytes_big line) r < 2 ^ 128 /\
    length padded = 16%nat /\
    int_from_bytes_big padded = Z.shiftl (int_from_bytes_big line) r.
Proof.
  unfold encode_line_padded, int_lshift. intros H.
  destruct (rmargin tape) as [r|]; [|discriminate].
  destruct (r <? 0) eqn:Er; [discriminate|].
  cbn in H. apply int_to_bytes_big_inv in H as (Hv & Hl & Hval).
  exists r. repeat split; try assumption; lia.
Qed.

Lemma encode_line_padded_ok line tape r :
  rmargin tape = Some r -> 0 <= r ->
  Z.shiftl (int_from_bytes_big line) r < 2 ^ 128 ->
  exists padded, encode_line_padded line tape = inr padded /\
    length padded = 16%nat /\
    int_from_bytes_big padded = Z.shiftl (int_from_bytes_big line) r.
Proof.
  intros Hr Hr0 Hfit. unfold encode_line_padded, int_lshift. rewrite Hr.
  destruct (r <? 0) eqn:Er; [lia|]. cbn.
  apply int_to_bytes_big_ok. split.
  - apply Z.shiftl_nonneg. apply int_from_bytes_big_range.
  - exact Hfit.
Qed.

(** Without a margin a line of at most 16 bytes is padded with zero bytes on
    the left. *)
Lemma encode_line_padded_unshifted line tape :
  rmargin tape = Some 0 -> (length line <= 16)%nat ->
  encode_line_padded line tape =
  inr (replicate (16 - length line) x00 ++ line).
Proof.
  intros Hr Hl.
  destruct (encode_line_padded_ok line tape 0 Hr)
    as (padded & Hpad & Hlen & Hv).
  - lia.
  - rewrite Z.shiftl_0_r. pose proof (int_from_bytes_big_range line).
    assert (256 ^ Z.of_nat (length line) <= 256 ^ 16)
      by (apply Z.pow_le_mono_r; lia).
    change (2 ^ 128) with (256 ^ 16). lia.
  - rewrite Hpad. f_equal. apply int_from_bytes_big_inj.
    + rewrite length_app, length_replicate. lia.
    + rewrite Hv, Z.shiftl_0_r, int_from_bytes_big_zeros. reflexivity.
Qed.

Lemma struct_pack_H_le_ok v :
  0 <= v <= 65535 ->
  exists p0 p1, struct_pack_H_le v = inr [p0; p1] /\
    byte_val p0 + 256 * byte_val p1 = v.
Proof.
  intros Hv. unfold struct_pack_H_le.
  destruct (0 <=? v) eqn:E1; [|lia]. destruct (v <=? 65535) eqn:E2; [|lia].
  do 2 eexists. split; [reflexivity|].
  rewrite !byte_val_of.
  - pose proof (Z.div_mod v 256). lia.
  - split; [apply Z.div_pos; lia | apply Z.div_lt_upper_bound; lia].
  - apply Z.mod_pos_bound. lia.
Qed.

Lemma encode_line_of_padded line tape padded :
  encode_line_padded line tape = inr padded ->
  exists p0 p1,
    encode_line line tape = inr (p0 :: p1 :: packbits.encode padded) /\
    byte_val p0 + 256 * byte_val p1 =
      Z.of_nat (length (packbits.encode padded)).
Proof.
  intros H. unfold encode_line. rewrite H. cbn.
  pose proof (encode_line_padded_inv _ _ _ H) as (r & _ & _ & _ & Hl & _).
  pose proof (encode_length padded) as Hc. rewrite Hl in Hc.
  destruct (struct_pack_H_le_ok (Z.of_nat (length (packbits.encode padded))))
    as (p0 & p1 & Hp & Hval); [lia|].
  rewrite Hp. cbn. eauto.
Qed.

Lemma encode_line_inv line tape out :
  encode_line line tape = inr out ->
  exists padded p0 p1, encode_line_padded line tape = inr padded /\
    out = p0 :: p1 :: packbits.encode padded.
Proof.
  intros H. destruct (encode_line_padded line tape) as [e|padded] eqn:E.
  - unfold encode_line in H. rewrite E in H. discriminate.
  - destruct (encode_line_of_padded _ _ _ E) as (p0 & p1 & Hout & _).
    rewrite Hout in H. injection H as <-. eauto.
Qed.

(** The encoder and the codec on concrete rows. *)
Example packbits_encode_empty : packbits.encode [] = [].
Proof. reflexivity. Qed.

Example packbits_encode_long_run :
  packbits.encode (replicate 130 x07) = [xff; x07; x81; x07] /\
  packbits.decode [xff; x07; x81; x07] = inr (replicate 130 x07).
Proof. split; vm_compute; reflexivity. Qed.

Example packbits_decode_truncated :
  packbits.decode [x02; x41; x42] = inl DecodeError.
Proof. reflexivity. Qed.

Example encode_line_full_row_24mm :
  encode_line (replicate 16 xff) tape_24mm = inr [x02; x00; xf1; xff].
Proof. vm_compute. reflexivity. Qed.

Example encode_line_print_area_18mm :
  encode_line_padded (replicate 14 xff) tape_18mm =
    inr ([x00] ++ replicate 14 xff ++ [x00]) /\
  encode_line (replicate 14 xff) tape_18mm =
    inr [x06; x00; x00; x00; xf3; xff; x00; x00].
Proof. split; vm_compute; reflexivity. Qed.

Example encode_line_no_tape :
  encode_line [xff] NO_TAPE = inl TypeError.
Proof. reflexivity. Qed.

(** ** The status decoder *)

Lemma int_bool_land_bit v k :
  0 <= k -> int_bool (Z.land v (Z.shiftl 1 k)) = Z.testbit v k.
Proof.
  intros Hk. unfold int_bool. rewrite Z.shiftl_1_l.
  assert (H : Z.land v (2 ^ k) = if Z.testbit v k then 2 ^ k else 0).
  { apply Z.bits_inj'. intros n Hn.
    rewrite Z.land_spec, Z.pow2_bits_eqb by lia.
    destruct (Z.eqb_spec k n) as [->|Hne].
    - destruct (Z.testbit v n); simpl.
      + rewrite Z.pow2_bits_eqb, Z.eqb_refl by lia. reflexivity.
      + rewrite Z.bits_0. reflexivity.
    - rewrite andb_false_r. destruct (Z.testbit v k).
      + rewrite Z.pow2_bits_eqb by lia. symmetry. apply Z.eqb_neq. exact Hne.
      + rewrite Z.bits_0. reflexivity. }
  rewrite H. destruct (Z.testbit v k).
  - assert (0 < 2 ^ k) by (apply Z.pow_pos_nonneg; lia).
    destruct (Z.eqb_spec (2 ^ k) 0); [lia | reflexivity].
  - reflexivity.
Qed.

Lemma Errors_init_flags byte1 byte2 :
  Errors_init byte1 byte2 =
  mkErrors (error_flags (Z.lor byte1 (Z.shiftl byte2 8))).
Proof.
  unfold Errors_init, error_flags. cbn [map ERROR_MASK].
  rewrite !int_bool_land_bit by lia. reflexivity.
Qed.

Lemma Errors_any_flags value :
  Errors_any (mkErrors (error_flags value)) =
  Z.testbit value 0 || Z.testbit value 2 || Z.testbit value 3 ||
  Z.testbit value 6 || Z.testbit value 8 || Z.testbit value 12 ||
  Z.testbit value 13.
Proof.
  unfold error_flags.
  generalize (Z.testbit value 0) (Z.testbit value 2) (Z.testbit value 3)
    (Z.testbit value 6) (Z.testbit value 8) (Z.testbit value 12)
    (Z.testbit value 13).
  intros f0 f2 f3 f6 f8 f12 f13. vm_compute.
  destruct f0, f2, f3, f6, f8, f12, f13; reflexivity.
Qed.

(** The bits that [ERROR_MASK] names, as one 16-bit mask. *)
Lemma testbit_land_mask v k :
  In k [0; 2; 3; 6; 8; 12; 13] ->
  Z.testbit (Z.land v 12621) k = Z.testbit v k.
Proof.
  intros Hk. rewrite Z.land_spec.
  simpl in Hk.
  destruct Hk as [<-|[<-|[<-|[<-|[<-|[<-|[<-|[]]]]]]]];
    (replace (Z.testbit 12621 _) with true by reflexivity);
    apply andb_true_r.
Qed.

Lemma error_flags_mask v v' :
  Z.land v 12621 = Z.land v' 12621 -> error_flags v = error_flags v'.
Proof.
  intros H. unfold error_flags.
  rewrite <- (testbit_land_mask v 0), <- (testbit_land_mask v 2),
    <- (testbit_land_mask v 3), <- (testbit_land_mask v 6),
    <- (testbit_land_mask v 8), <- (testbit_land_mask v 12),
    <- (testbit_land_mask v 13) by (simpl; tauto).
  rewrite H.
  rewrite !testbit_land_mask by (simpl; tauto). reflexivity.
Qed.

(** The value of the two error bytes: [byte1] is the low byte, [byte2] the
    high byte. *)
Lemma error_value_bits byte1 byte2 k :
  0 <= byte1 < 256 -> 0 <= k ->
  Z.testbit (Z.lor byte1 (Z.shiftl byte2 8)) k =
  if k <? 8 then Z.testbit byte1 k else Z.testbit byte2 (k - 8).
Proof.
  intros H1 Hk. rewrite Z.lor_spec, Z.shiftl_spec by lia.
  destruct (Z.ltb_spec k 8).
  - rewrite (Z.testbit_neg_r byte2) by lia. apply orb_false_r.
  - replace (Z.testbit byte1 k) with false; [reflexivity|].
    symmetry. apply (Z.bits_above_log2 byte1 k); [lia|].
    destruct (Z.eq_dec byte1 0) as [->|Hne]; [simpl; lia|].
    apply Z.log2_lt_pow2; [lia|].
    apply Z.lt_le_trans with (2 ^ 8); [simpl; lia|].
    apply Z.pow_le_mono_r; lia.
Qed.

Lemma Status_fields_long msg :
  (27 <= length msg)%nat -> Status_fields msg = inr (status_fields msg).
Proof.
  intros H.
  do 27 (destruct msg as [|? msg]; [simpl in H; lia|]).
  reflexivity.
Qed.

Lemma Status_fields_short msg :
  (length msg < 27)%nat -> Status_fields msg = inl IndexError.
Proof.
  intros H.
  do 27 (destruct msg as [|? msg]; [reflexivity|]).
  simpl in H. lia.
Qed.

Lemma Status_init_long msg :
  (27 <= length msg)%nat ->
  Status_init msg =
  tape_info ← MEDIA_WIDTH_INFO_getitem (byte_val (nth 10 msg x00));
  mret (mkStatus (status_fields msg)
          (Errors_init (byte_val (nth 8 msg x00)) (byte_val (nth 9 msg x00)))
          tape_info).
Proof.
  intros H. unfold Status_init. rewrite Status_fields_long by exact H.
  reflexivity.
Qed.

Lemma MEDIA_WIDTH_INFO_unknown k :
  ~ In k [0; 4; 6; 9; 12; 18; 24] -> MEDIA_WIDTH_INFO !! k = None.
Proof.
  intros Hk. unfold MEDIA_WIDTH_INFO. cbn [list_to_map foldr fst snd uncurry].
  simpl in Hk.
  rewrite !lookup_insert_ne by (intros <-; tauto).
  apply lookup_empty.
Qed.

Lemma MEDIA_WIDTH_INFO_known k :
  In k [0; 4; 6; 9; 12; 18; 24] -> is_Some (MEDIA_WIDTH_INFO !! k).
Proof.
  simpl. intros [<-|[<-|[<-|[<-|[<-|[<-|[<-|[]]]]]]]]; eexists; reflexivity.
Qed.

Lemma MEDIA_WIDTH_INFO_sentinel k :
  MEDIA_WIDTH_INFO !! k = Some (mkTapeInfo None None None None) -> k = 0.
Proof.
  intros H.
  destruct (decide (In k [0; 4; 6; 9; 12; 18; 24])) as [Hk|Hk].
  - simpl in Hk.
    destruct Hk as [<-|[<-|[<-|[<-|[<-|[<-|[<-|[]]]]]]]];
      first [reflexivity | discriminate H].
  - rewrite MEDIA_WIDTH_INFO_unknown in H by exact Hk. discriminate.
Qed.

(** ** The state monad *)

Lemma M_bind_inr {A B : Type} (m : M A) (f : A -> M B) w y w' :
  (m ≫= f) w = (inr y, w') ->
  exists x w1, m w = (inr x, w1) /\ f x w1 = (inr y, w').
Proof.
  unfold mbind, M_bind. destruct (m w) as [[e|x] w1]; intros H.
  - discriminate.
  - eauto.
Qed.

Lemma M_bind_ok {A B : Type} (m : M A) (f : A -> M B) w x w1 :
  m w = (inr x, w1) -> (m ≫= f) w = f x w1.
Proof. unfold mbind, M_bind. intros ->. reflexivity. Qed.

Lemma M_bind_raise {A B : Type} (m : M A) (f : A -> M B) w e w1 :
  m w = (inl e, w1) -> (m ≫= f) w = (inl e, w1).
Proof. unfold mbind, M_bind. intros ->. reflexivity. Qed.

Lemma wrote_nil w : wrote w w [].
Proof. split; [symmetry; apply app_nil_r | reflexivity]. Qed.

Lemma wrote_app w w1 w2 l1 l2 :
  wrote w w1 l1 -> wrote w1 w2 l2 -> wrote w w2 (l1 ++ l2).
Proof.
  intros [H1 R1] [H2 R2]. split.
  - rewrite H2, H1, app_assoc. reflexivity.
  - congruence.
Qed.

Lemma backend_write_wrote b w x w' :
  backend_write b w = (inr x, w') -> wrote w w' [b] /\ pending w' = pending w.
Proof. unfold backend_write. intros [= _ <-]. repeat split. Qed.

Lemma backend_read_spec n w :
  exists w', backend_read n w = (inr (next_reply w), w') /\
    wrote w w' [] /\ pending w' = tail (pending w).
Proof.
  unfold backend_read, next_reply.
  destruct w as [wr [|reply rest] rd]; simpl.
  - eexists. split; [reflexivity|]. split; [apply wrote_nil | reflexivity].
  - eexists. split; [reflexivity|]. split; [|reflexivity].
    split; simpl; [symmetry; apply app_nil_r | reflexivity].
Qed.

Lemma debug_status_wrote r w w' :
  P700._debug_status w = (r, w') -> wrote w w' [].
Proof.
  unfold P700._debug_status. intros H.
  destruct (backend_read_spec 32 w) as (w1 & Hr & Hw & _).
  rewrite (M_bind_ok _ _ _ _ _ Hr) in H.
  destruct (next_reply w) as [|b data].
  - injection H as _ <-. exact Hw.
  - unfold mbind, M_bind, lift in H.
    destruct (Status_init (b :: data)); injection H as _ <-; exact Hw.
Qed.

Lemma debug_status_quiet w :
  pending w = [] -> P700._debug_status w = (inr tt, w).
Proof.
  intros H. unfold P700._debug_status, backend_read, mbind, M_bind.
  rewrite H. reflexivity.
Qed.

Lemma reset_spec w :
  exists w', P700.reset w = (inr tt, w') /\
    wrote w w' [CMD_INVALIDATE; CMD_INITIALIZE] /\ pending w' = pending w.
Proof.
  eexists. split; [reflexivity|]. split; [|reflexivity].
  split; simpl; [|reflexivity]. rewrite <- app_assoc. reflexivity.
Qed.

(** ** The print session *)

(** The writes of the raster loop. *)
Lemma raster_lines_inv status document w w' :
  for_each document (P700.raster_line status) w = (inr tt, w') ->
  exists chunks,
    Forall2 (fun line chunk =>
               encode_line line (Status_tape_info status) = inr chunk)
            document chunks /\
    wrote w w' (map (cons RASTER_MARK) chunks).
Proof.
  revert w. induction document as [|line document IH]; intros w H.
  - injection H as <-. exists []. split; [constructor | apply wrote_nil].
  - cbn [for_each] in H.
    apply M_bind_inr in H as ([] & w1 & Hline & Hrest).
    unfold P700.raster_line in Hline.
    apply M_bind_inr in Hline as (chunk & w0 & Henc & Hwrite).
    unfold lift in Henc. injection Henc as Henc <-.
    apply backend_write_wrote in Hwrite as [Hwrite _].
    apply IH in Hrest as (chunks & Hall & Hwrote).
    exists (chunk :: chunks). split; [constructor; assumption|].
    apply (wrote_app _ _ _ _ _ Hwrite Hwrote).
Qed.

Lemma raster_line_ok status line chunk w :
  encode_line line (Status_tape_info status) = inr chunk ->
  P700.raster_line status line w =
  (inr tt, mkWorld (written w ++ [RASTER_MARK :: chunk]) (pending w)
             (rendered w)).
Proof.
  intros H. unfold P700.raster_line, mbind, M_bind, lift. rewrite H.
  reflexivity.
Qed.

Lemma raster_lines_ok status document chunks w :
  Forall2 (fun line chunk =>
             encode_line line (Status_tape_info status) = inr chunk)
          document chunks ->
  exists w', for_each document (P700.raster_line status) w = (inr tt, w') /\
    pending w' = pending w.
Proof.
  intros Hall. revert w.
  induction Hall as [|line chunk document chunks Hl _ IH]; intros w.
  - exists w. split; reflexivity.
  - cbn [for_each].
    rewrite (M_bind_ok _ _ _ _ _ (raster_line_ok status line chunk w Hl)).
    destruct (IH (mkWorld (written w ++ [RASTER_MARK :: chunk]) (pending w)
                    (rendered w))) as (w' & Hrun & Hp).
    exists w'. split; [exact Hrun | exact Hp].
Qed.

Lemma mret_wrote {A : Type} (x y : A) w w' :
  (mret x : M A) w = (inr y, w') -> wrote w w' [].
Proof. intros [= _ <-]. apply wrote_nil. Qed.

(** Split the next command off a successful run and record what it wrote. *)
Ltac run_step H :=
  let x := fresh "x" in
  let w1 := fresh "w" in
  let Hs := fresh "Hs" in
  apply M_bind_inr in H as (x & w1 & Hs & H);
  try (destruct x as []);
  first [ apply backend_write_wrote in Hs as [Hs _]
        | apply debug_status_wrote in Hs
        | apply mret_wrote in Hs
        | idtac ].

Ltac chain_writes :=
  repeat match goal with
         | H1 : wrote ?a ?b ?l1, H2 : wrote ?b ?c ?l2 |- _ =>
             pose proof (wrote_app _ _ _ _ _ H1 H2); clear H1 H2
         end.

Lemma print_page_inv status document count i w w' :
  P700.print_page status document count i w = (inr tt, w') ->
  exists chunks,
    Forall2 (fun line chunk =>
               encode_line line (Status_tape_info status) = inr chunk)
            document chunks /\
    wrote w w' (page_log count i (map (cons RASTER_MARK) chunks)).
Proof.
  unfold P700.print_page, page_log, page_writes. intros H.
  destruct (i =? 0); destruct (i <? count - 1);
    do 14 run_step H;
    match goal with
    | Hs : for_each _ _ _ = _ |- _ =>
        apply raster_lines_inv in Hs as (chunks & Hall & Hs)
    end;
    run_step H;
    first [ apply backend_write_wrote in H as [H _] | apply mret_wrote in H ];
    exists chunks; (split; [exact Hall|]);
    chain_writes;
    match goal with
    | Hw : wrote w w' ?l |- wrote w w' ?l' =>
        replace l' with l; [exact Hw|]
    end;
    simpl; rewrite <- ?app_assoc; reflexivity.
Qed.

Lemma chunks_unique tape document c1 c2 :
  Forall2 (fun line chunk => encode_line line tape = inr chunk) document c1 ->
  Forall2 (fun line chunk => encode_line line tape = inr chunk) document c2 ->
  c1 = c2.
Proof.
  intros H1. revert c2. induction H1 as [|l c doc cs Hl _ IH]; intros c2 H2.
  - inversion H2. reflexivity.
  - inversion H2 as [|l' c' doc' cs' Hl' Hrest]; subst.
    rewrite Hl in Hl'. injection Hl' as <-. f_equal. apply IH, Hrest.
Qed.

Lemma print_pages_inv status document count idx w w' chunks :
  Forall2 (fun line chunk =>
             encode_line line (Status_tape_info status) = inr chunk)
          document chunks ->
  for_each idx (P700.print_page status document count) w = (inr tt, w') ->
  wrote w w'
    (concat (map (fun i => page_log count i (map (cons RASTER_MARK) chunks))
               idx)).
Proof.
  intros Hall. revert w. induction idx as [|i idx IH]; intros w H.
  - injection H as <-. apply wrote_nil.
  - cbn [for_each] in H. run_step H.
    apply print_page_inv in Hs as (chunks' & Hall' & Hs).
    rewrite (chunks_unique _ _ _ _ Hall' Hall) in Hs.
    apply IH in H. cbn [map concat].
    apply (wrote_app _ _ _ _ _ Hs H).
Qed.

Lemma later_pages rasters n k m :
  (1 <= k)%nat -> (n = k + S m)%nat ->
  concat (map (fun i => page_log (Z.of_nat n) i rasters)
            (map Z.of_nat (seq k (S m)))) =
  page_writes false rasters ++
  concat (replicate m (CMD_FORM_FEED :: page_writes false rasters)).
Proof.
  revert k. induction m as [|m IH]; intros k Hk Hn.
  - cbn [seq map concat replicate]. unfold page_log.
    destruct (Z.eqb_spec (Z.of_nat k) 0); [lia|].
    destruct (Z.ltb_spec (Z.of_nat k) (Z.of_nat n - 1)); [lia|].
    rewrite !app_nil_r. reflexivity.
  - change (seq k (S (S m))) with (k :: seq (S k) (S m)).
    cbn [map concat]. rewrite (IH (S k)) by lia.
    unfold page_log at 1.
    destruct (Z.eqb_spec (Z.of_nat k) 0); [lia|].
    destruct (Z.ltb_spec (Z.of_nat k) (Z.of_nat n - 1)); [|lia].
    cbn [replicate concat]. rewrite <- !app_assoc. reflexivity.
Qed.

Lemma all_pages rasters n :
  concat (map (fun i => page_log (Z.of_nat n) i rasters)
            (map Z.of_nat (seq 0 n))) =
  match n with
  | O => []
  | S more =>
      page_writes true rasters ++
      concat (replicate more (CMD_FORM_FEED :: page_writes false rasters))
  end.
Proof.
  destruct n as [|[|m]].
  - reflexivity.
  - cbn [seq map concat replicate]. unfold page_log. simpl.
    rewrite !app_nil_r. reflexivity.
  - change (seq 0 (S (S m))) with (0%nat :: seq 1 (S m)).
    cbn [map concat]. rewrite (later_pages rasters (S (S m)) 1 m) by lia.
    unfold page_log.
    change (Z.of_nat 0 =? 0) with true.
    destruct (Z.ltb_spec (Z.of_nat 0) (Z.of_nat (S (S m)) - 1)); [|lia].
    cbn [replicate concat]. rewrite <- !app_assoc. reflexivity.
Qed.

Lemma raw_print_inv status document count w w' chunks :
  Forall2 (fun line chunk =>
             encode_line line (Status_tape_info status) = inr chunk)
          document chunks ->
  P700._raw_print status document count w = (inr tt, w') ->
  wrote w w'
    (session_writes (Z.to_nat count) (map (cons RASTER_MARK) chunks)).
Proof.
  intros Hall H.
  unfold P700._raw_print in H.
  destruct (reset_spec w) as (w0 & Hreset & Hw0 & _).
  rewrite (M_bind_ok _ _ _ _ _ Hreset) in H.
  run_step H.
  apply (print_pages_inv _ _ _ _ _ _ _ Hall) in Hs.
  do 2 run_step H. apply debug_status_wrote in H.
  chain_writes.
  match goal with
  | Hw : wrote w w' ?l |- wrote w w' ?l' => replace l' with l; [exact Hw|]
  end.
  unfold session_writes, range0.
  destruct (Z.le_gt_cases count 0) as [Hc|Hc].
  - replace (Z.to_nat count) with 0%nat by lia. reflexivity.
  - remember (Z.to_nat count) as n eqn:Hn.
    assert (Hcn : count = Z.of_nat n) by lia. rewrite Hcn.
    rewrite all_pages. reflexivity.
Qed.

Create HintDb quiet.

Lemma quiet_write b : runs_quietly (backend_write b).
Proof. intros w Hq. eexists. split; [reflexivity | exact Hq]. Qed.

Lemma quiet_ret : runs_quietly (mret tt).
Proof. intros w Hq. eexists. split; [reflexivity | exact Hq]. Qed.

Lemma quiet_debug_status : runs_quietly P700._debug_status.
Proof.
  intros w Hq. exists w. split; [apply debug_status_quiet, Hq | exact Hq].
Qed.

Lemma quiet_seq (m k : M unit) :
  runs_quietly m -> runs_quietly k -> runs_quietly (m;; k).
Proof.
  intros Hm Hk w Hq. destruct (Hm w Hq) as (w1 & Hrun & Hq1).
  rewrite (M_bind_ok _ _ _ _ _ Hrun). apply Hk, Hq1.
Qed.

Lemma quiet_if (c : bool) (m k : M unit) :
  runs_quietly m -> runs_quietly k -> runs_quietly (if c then m else k).
Proof. destruct c; auto. Qed.

Lemma quiet_for_each {A : Type} (l : list A) (body : A -> M unit) :
  Forall (fun x => runs_quietly (body x)) l -> runs_quietly (for_each l body).
Proof.
  induction 1 as [|x l Hx _ IH]; cbn [for_each].
  - apply quiet_ret.
  - apply quiet_seq; assumption.
Qed.

Lemma quiet_raster_line status line chunk :
  encode_line line (Status_tape_info status) = inr chunk ->
  runs_quietly (P700.raster_line status line).
Proof.
  intros H w Hq. rewrite (raster_line_ok _ _ _ _ H).
  eexists. split; [reflexivity | exact Hq].
Qed.

#[global] Hint Resolve quiet_write quiet_ret quiet_debug_status quiet_seq
  quiet_if : quiet.

Lemma quiet_raster_lines status document chunks :
  Forall2 (fun line chunk =>
             encode_line line (Status_tape_info status) = inr chunk)
          document chunks ->
  runs_quietly (for_each document (P700.raster_line status)).
Proof.
  intros Hall. apply quiet_for_each.
  induction Hall as [|line chunk document chunks Hl _ IH]; constructor.
  - apply (quiet_raster_line _ _ _ Hl).
  - exact IH.
Qed.

Lemma quiet_print_page status document chunks count i :
  Forall2 (fun line chunk =>
             encode_line line (Status_tape_info status) = inr chunk)
          document chunks ->
  runs_quietly (P700.print_page status document count i).
Proof.
  intros Hall. pose proof (quiet_raster_lines _ _ _ Hall).
  unfold P700.print_page. auto 20 with quiet.
Qed.

(** With a silent device and lines that fit the raster, the job runs to its
    end. *)
Lemma raw_print_succeeds status document chunks count :
  Forall2 (fun line chunk =>
             encode_line line (Status_tape_info status) = inr chunk)
          document chunks ->
  runs_quietly (P700._raw_print status document count).
Proof.
  intros Hall. unfold P700._raw_print, P700.reset.
  assert (runs_quietly
            (for_each (range0 count)
               (P700.print_page status document count))).
  { apply quiet_for_each, Forall_forall. intros i _.
    apply (quiet_print_page _ _ _ _ _ Hall). }
  auto 20 with quiet.
Qed.

(** ** Reading the status *)

Lemma get_status_eq w :
  P700.get_status w =
  (match next_reply w with
   | [] => inl (IOError "No Response from printer")
   | _ :: _ =>
       if (length (next_reply w) <? 32)%nat
       then inl (IOError "Invalid Response from printer")
       else Status_init (next_reply w)
   end,
   mkWorld (written w ++ [CMD_INVALIDATE; CMD_INITIALIZE; CMD_STATUS_REQUEST])
     (tail (pending w)) (rendered w)).
Proof.
  unfold next_reply, P700.get_status, P700.reset.
  unfold mbind, M_bind, backend_write, backend_read, lift, raise.
  destruct w as [wr [|reply rest] rd]; cbn [written pending rendered tail];
    rewrite <- !app_assoc; cbn [app].
  - reflexivity.
  - destruct reply as [|b reply]; [reflexivity|].
    destruct (length (b :: reply) <? 32)%nat; reflexivity.
Qed.

Lemma count_writes_app cmd l1 l2 :
  count_writes cmd (l1 ++ l2) =
  (count_writes cmd l1 + count_writes cmd l2)%nat.
Proof. unfold count_writes. rewrite filter_app, length_app. reflexivity. Qed.

Lemma count_writes_rasters cmd chunks :
  head cmd <> Some RASTER_MARK ->
  count_writes cmd (map (cons RASTER_MARK) chunks) = 0%nat.
Proof.
  intros Hc. unfold count_writes.
  induction chunks as [|c chunks IH]; [reflexivity|].
  cbn [map]. rewrite filter_cons_False; [exact IH|].
  intros <-. apply Hc. reflexivity.
Qed.

Lemma count_writes_repeat cmd l k :
  count_writes cmd (concat (replicate k l)) = (k * count_writes cmd l)%nat.
Proof.
  induction k as [|k IH]; [reflexivity|].
  cbn [replicate concat]. rewrite count_writes_app, IH. lia.
Qed.

Lemma count_print_information first chunks :
  count_writes CMD_PRINT_INFORMATION
    (page_writes first (map (cons RASTER_MARK) chunks)) =
  if first then 2%nat else 1%nat.
Proof.
  unfold page_writes. rewrite !count_writes_app.
  rewrite count_writes_rasters by discriminate.
  destruct first; reflexivity.
Qed.

Lemma count_form_feed first chunks :
  count_writes CMD_FORM_FEED
    (page_writes first (map (cons RASTER_MARK) chunks)) = 0%nat.
Proof.
  unfold page_writes. rewrite !count_writes_app.
  rewrite count_writes_rasters by discriminate.
  destruct first; reflexivity.
Qed.

Lemma session_print_information more chunks :
  count_writes CMD_PRINT_INFORMATION
    (session_writes (S more) (map (cons RASTER_MARK) chunks)) =
  (S more + 1)%nat.
Proof.
  unfold session_writes. rewrite !count_writes_app, count_writes_repeat.
  change (CMD_FORM_FEED :: ?l) with ([CMD_FORM_FEED] ++ l).
  rewrite count_writes_app, !count_print_information.
  change (count_writes CMD_PRINT_INFORMATION [CMD_INVALIDATE; CMD_INITIALIZE])
    with 0%nat.
  change (count_writes CMD_PRINT_INFORMATION [CMD_FORM_FEED]) with 0%nat.
  change (count_writes CMD_PRINT_INFORMATION [CMD_END_JOB]) with 0%nat.
  lia.
Qed.

Lemma session_form_feed more chunks :
  count_writes CMD_FORM_FEED
    (session_writes (S more) (map (cons RASTER_MARK) chunks)) = more.
Proof.
  unfold session_writes. rewrite !count_writes_app, count_writes_repeat.
  change (CMD_FORM_FEED :: ?l) with ([CMD_FORM_FEED] ++ l).
  rewrite count_writes_app, !count_form_feed.
  change (count_writes CMD_FORM_FEED [CMD_INVALIDATE; CMD_INITIALIZE])
    with 0%nat.
  change (count_writes CMD_FORM_FEED [CMD_FORM_FEED]) with 1%nat.
  change (count_writes CMD_FORM_FEED [CMD_END_JOB]) with 0%nat.
  lia.
Qed.

(** ** Decoding a reply *)

Lemma Status_init_inv msg s :
  Status_init msg = inr s ->
  (27 <= length msg)%nat /\
  Status_data s = status_fields msg /\
  Status_errors s =
    Errors_init (byte_val (nth 8 msg x00)) (byte_val (nth 9 msg x00)) /\
  MEDIA_WIDTH_INFO !! byte_val (nth 10 msg x00) = Some (Status_tape_info s).
Proof.
  intros H.
  destruct (Nat.le_gt_cases 27 (length msg)) as [Hl|Hl].
  - split; [exact Hl|]. rewrite Status_init_long in H by exact Hl.
    unfold MEDIA_WIDTH_INFO_getitem in H.
    destruct (MEDIA_WIDTH_INFO !! byte_val (nth 10 msg x00)) as [t|];
      [|discriminate].
    injection H as <-. auto.
  - unfold Status_init in H. rewrite Status_fields_short in H by lia.
    discriminate.
Qed.

Lemma Status_init_known msg :
  (27 <= length msg)%nat ->
  In (byte_val (nth 10 msg x00)) [0; 4; 6; 9; 12; 18; 24] ->
  exists s, Status_init msg = inr s.
Proof.
  intros Hl Hk. rewrite Status_init_long by exact Hl.
  unfold MEDIA_WIDTH_INFO_getitem.
  destruct (MEDIA_WIDTH_INFO_known _ Hk) as [t ->]. eexists. reflexivity.
Qed.

Lemma Status_init_unknown msg :
  (27 <= length msg)%nat ->
  ~ In (byte_val (nth 10 msg x00)) [0; 4; 6; 9; 12; 18; 24] ->
  Status_init msg = inl (KeyError (KInt (byte_val (nth 10 msg x00)))).
Proof.
  intros Hl Hk. rewrite Status_init_long by exact Hl.
  unfold MEDIA_WIDTH_INFO_getitem.
  rewrite MEDIA_WIDTH_INFO_unknown by exact Hk. reflexivity.
Qed.

Lemma Status_ready_flags data byte1 byte2 tape :
  Status_ready (mkStatus data (Errors_init byte1 byte2) tape) =
  let value := Z.lor byte1 (Z.shiftl byte2 8) in
  negb (Z.testbit value 0 || Z.testbit value 2 || Z.testbit value 3 ||
        Z.testbit value 6 || Z.testbit value 8 || Z.testbit value 12 ||
        Z.testbit value 13).
Proof.
  unfold Status_ready. cbn [Status_errors].
  rewrite Errors_init_flags, Errors_any_flags. reflexivity.
Qed.

(** * The claims of the specification *)

(** C1, as amended.  For every bitmap line and every tape info whose right
    margin is an integer [r >= 0] such that the line's big-endian value
    shifted left by [r] bits is below [2^128], [encode_line] returns two
    prefix bytes followed by the run-length compression of [padded], where
    [padded] is the 16-byte, most-significant-byte-first form of the
    shifted value (the only 16-byte string with that value, hence zero
    padded on the left) and the prefix is the little-endian length of the
    compressed payload. *)
Theorem encode_line_correct (line : bytes) (tape : TapeInfo) (r : Z) :
  rmargin tape = Some r ->
  0 <= r ->
  Z.shiftl (int_from_bytes_big line) r < 2 ^ 128 ->
  exists padded p0 p1,
    length padded = 16%nat /\
    int_from_bytes_big padded = Z.shiftl (int_from_bytes_big line) r /\
    (forall q, length q = 16%nat ->
       int_from_bytes_big q = int_from_bytes_big padded -> q = padded) /\
    encode_line line tape = inr (p0 :: p1 :: packbits.encode padded) /\
    byte_val p0 + 256 * byte_val p1 =
      Z.of_nat (length (packbits.encode padded)).
Proof.
  intros Hr Hr0 Hfit.
  destruct (encode_line_padded_ok line tape r Hr Hr0 Hfit)
    as (padded & Hpad & Hlen & Hval).
  destruct (encode_line_of_padded line tape padded Hpad)
    as (p0 & p1 & Henc & Hprefix).
  exists padded, p0, p1. repeat split; try assumption.
  intros q Hq Hqv. apply int_from_bytes_big_inj; congruence.
Qed.

(** The amended C1 at the line [01 02 03] on 18 mm tape. *)
Lemma encode_line_correct_witness :
  exists padded p0 p1,
    length padded = 16%nat /\
    int_from_bytes_big padded =
      Z.shiftl (int_from_bytes_big [x01; x02; x03]) 8 /\
    (forall q, length q = 16%nat ->
       int_from_bytes_big q = int_from_bytes_big padded -> q = padded) /\
    encode_line [x01; x02; x03] tape_18mm =
      inr (p0 :: p1 :: packbits.encode padded) /\
    byte_val p0 + 256 * byte_val p1 =
      Z.of_nat (length (packbits.encode padded)).
Proof.
  apply (encode_line_correct [x01; x02; x03] tape_18mm 8).
  - reflexivity.
  - lia.
  - vm_compute. reflexivity.
Defined.

(** C1 as stated fails: on 18 mm tape (right margin 8) a full row of 16
    bytes [FF] does not fit once shifted, and [encode_line] raises
    [OverflowError] instead of returning a prefixed payload; with a
    negative right margin the shift itself raises. *)
Lemma encode_line_overflow_counterexample :
  rmargin tape_18mm = Some 8 /\
  encode_line (replicate 16 xff) tape_18mm = inl OverflowError /\
  ~ (exists out, encode_line (replicate 16 xff) tape_18mm = inr out) /\
  encode_line [xff] (mkTapeInfo (Some 0) (Some 128) (Some (-1)) None) =
    inl (ValueError "negative shift count").
Proof.
  split; [reflexivity|]. split; [vm_compute; reflexivity|].
  split; [|reflexivity].
  intros [out H]. vm_compute in H. discriminate H.
Qed.

(** C2.  For every byte string [x], decompressing the run-length
    compression of [x] gives [x] back; the encoder cuts every input, however
    long, into runs that each stay within the single-run limit of 128
    bytes. *)
Theorem packbits_roundtrip (x : bytes) :
  packbits.decode (packbits.encode x) = inr x /\
  Forall packbits.wf (packbits.segment x).
Proof.
  split; [apply decode_encode | apply segment_wf].
Qed.

(** C3.  Whenever [_raw_print] runs to its end with [count >= 1], every
    line of the document was encoded, and the writes it added to the
    transport are exactly: the reset, the first page with the
    print-information command written twice in a row right after the
    dynamic-mode switch and before autocut, cut-every-page, advanced mode,
    margin, compression mode and the raster lines, then for each further
    page a form feed followed by the page with the print-information
    command written once, then the end of the job.  For [count = 1] this is
    the listed sequence, with no form feed, and the bytes sent before the
    first raster line contain the print-information byte sequence exactly
    twice; in general the print-information command is written
    [count + 1] times and the form feed [count - 1] times, between pages
    and never after the last. *)
Theorem raw_print_session_order
    (status : Status) (document : list bytes) (count : Z) (w w' : world) :
  P700._raw_print status document count w = (inr tt, w') ->
  1 <= count ->
  exists chunks,
    Forall2 (fun line chunk =>
               encode_line line (Status_tape_info status) = inr chunk)
            document chunks /\
    let rasters := map (cons RASTER_MARK) chunks in
    let log := session_writes (Z.to_nat count) rasters in
    written w' = written w ++ log /\
    (count = 1 ->
     log = [CMD_INVALIDATE; CMD_INITIALIZE; CMD_DYNAMIC_MODE;
            CMD_PRINT_INFORMATION; CMD_PRINT_INFORMATION; CMD_AUTOCUT;
            CMD_CUT_EVERY; CMD_ADVANCED_MODE; CMD_MARGIN; CMD_COMPRESSION] ++
           rasters ++ [CMD_END_PAGE; CMD_END_JOB] /\
     concat log = job_head ++ concat rasters ++ [x5a; x1a] /\
     occurrences CMD_PRINT_INFORMATION job_head = 2%nat) /\
    log = [CMD_INVALIDATE; CMD_INITIALIZE] ++
          page_writes true rasters ++
          concat (replicate (Z.to_nat (count - 1))
                    (CMD_FORM_FEED :: page_writes false rasters)) ++
          [CMD_END_JOB] /\
    Z.of_nat (count_writes CMD_PRINT_INFORMATION log) = count + 1 /\
    Z.of_nat (count_writes CMD_FORM_FEED log) = count - 1.
Proof.
  intros Hrun Hcount.
  assert (Hchunks : exists chunks,
            Forall2 (fun line chunk =>
                       encode_line line (Status_tape_info status) = inr chunk)
                    document chunks).
  { unfold P700._raw_print in Hrun.
    destruct (reset_spec w) as (w0 & Hreset & _ & _).
    rewrite (M_bind_ok _ _ _ _ _ Hreset) in Hrun.
    run_step Hrun. unfold range0 in Hs.
    replace (Z.to_nat count) with (S (Z.to_nat (count - 1))) in Hs by lia.
    cbn [seq map for_each] in Hs. run_step Hs.
    apply print_page_inv in Hs0 as (chunks & Hall & _). eauto. }
  destruct Hchunks as (chunks & Hall). exists chunks.
  split; [exact Hall|]. intros rasters log.
  destruct (raw_print_inv _ _ _ _ _ _ Hall Hrun) as [Hlog _].
  fold rasters in Hlog. fold log in Hlog.
  split; [exact Hlog|].
  unfold log. replace (Z.to_nat count) with (S (Z.to_nat (count - 1))) by lia.
  split; [|split; [|split]].
  - intros ->.
    assert (Hone : session_writes (S (Z.to_nat (1 - 1))) rasters =
                   [CMD_INVALIDATE; CMD_INITIALIZE; CMD_DYNAMIC_MODE;
                    CMD_PRINT_INFORMATION; CMD_PRINT_INFORMATION; CMD_AUTOCUT;
                    CMD_CUT_EVERY; CMD_ADVANCED_MODE; CMD_MARGIN;
                    CMD_COMPRESSION] ++
                   rasters ++ [CMD_END_PAGE; CMD_END_JOB]).
    { unfold session_writes, page_writes. simpl.
      rewrite <- !app_assoc. reflexivity. }
    split; [exact Hone|]. split; [|reflexivity].
    rewrite Hone, !concat_app. reflexivity.
  - unfold session_writes. rewrite <- !app_assoc. reflexivity.
  - unfold rasters. rewrite session_print_information. lia.
  - unfold rasters. rewrite session_form_feed. lia.
Qed.

(** C3 at a two-line document on a silent device: printed once, the writes
    are the listed sequence; printed twice, one form feed is written. *)
Lemma raw_print_session_order_witness :
  let document := [[x01; x02]; [xff]] in
  let w1 := (P700._raw_print status_24mm document 1 silent_world).2 in
  let w2 := (P700._raw_print status_24mm document 2 silent_world).2 in
  (exists chunks,
     Forall2 (fun line chunk => encode_line line tape_24mm = inr chunk)
             document chunks /\
     written w1 =
       [CMD_INVALIDATE; CMD_INITIALIZE; CMD_DYNAMIC_MODE;
        CMD_PRINT_INFORMATION; CMD_PRINT_INFORMATION; CMD_AUTOCUT;
        CMD_CUT_EVERY; CMD_ADVANCED_MODE; CMD_MARGIN; CMD_COMPRESSION] ++
       map (cons RASTER_MARK) chunks ++ [CMD_END_PAGE; CMD_END_JOB]) /\
  Z.of_nat (count_writes CMD_FORM_FEED (written w2)) = 2 - 1.
Proof.
  intros document w1 w2. split.
  - destruct (raw_print_session_order status_24mm document 1 silent_world w1)
      as (chunks & Hall & Hlog & Hone & _).
    + vm_compute. reflexivity.
    + lia.
    + exists chunks. split; [exact Hall|].
      rewrite Hlog. destruct (Hone eq_refl) as [-> _]. reflexivity.
  - destruct (raw_print_session_order status_24mm document 2 silent_world w2)
      as (chunks & _ & Hlog & _ & _ & _ & Hff).
    + vm_compute. reflexivity.
    + lia.
    + rewrite Hlog. exact Hff.
Defined.

(** C4, as amended.  For a 32-byte status buffer whose media-width code
    (byte 10) is not a key of [MEDIA_WIDTH_INFO], decoding raises
    [KeyError] for that code and yields no status; for the codes of the
    table (0, 4, 6, 9, 12, 18, 24) decoding succeeds with the table's entry
    as [tape_info], and that entry is the all-undefined sentinel exactly for
    the code 0. *)
Theorem status_media_width_lookup (msg : bytes) :
  length msg = 32%nat ->
  let code := byte_val (nth 10 msg x00) in
  (~ In code [0; 4; 6; 9; 12; 18; 24] ->
   Status_init msg = inl (KeyError (KInt code))) /\
  (In code [0; 4; 6; 9; 12; 18; 24] ->
   exists s, Status_init msg = inr s /\
             MEDIA_WIDTH_INFO !! code = Some (Status_tape_info s)) /\
  (forall s, Status_init msg = inr s ->
             (Status_tape_info s = NO_TAPE <-> code = 0)).
Proof.
  intros Hl code. assert (Hl' : (27 <= length msg)%nat) by lia.
  split; [|split].
  - intros Hk. apply Status_init_unknown; assumption.
  - intros Hk. destruct (Status_init_known msg Hl' Hk) as [s Hs].
    exists s. split; [exact Hs|]. apply (Status_init_inv _ _ Hs).
  - intros s Hs. apply Status_init_inv in Hs as (_ & _ & _ & Ht).
    fold code in Ht. split.
    + intros Hno. rewrite Hno in Ht. apply MEDIA_WIDTH_INFO_sentinel, Ht.
    + intros H0. rewrite H0 in Ht. injection Ht as <-. reflexivity.
Qed.

(** The amended C4 at a buffer with the media code 99. *)
Lemma status_media_width_lookup_witness :
  Status_init reply_code_99 = inl (KeyError (KInt 99)).
Proof.
  apply (proj1 (status_media_width_lookup reply_code_99 eq_refl)).
  vm_compute. intuition discriminate.
Defined.

(** C4 as stated fails: 99 is not in the table, and decoding a 32-byte
    buffer with byte 10 equal to 99 yields no status at all, so no sentinel
    tape info either. *)
Lemma unknown_media_counterexample :
  MEDIA_WIDTH_INFO !! 99 = None /\
  length reply_code_99 = 32%nat /\
  nth 10 reply_code_99 x00 = x63 /\
  ~ (exists s, Status_init reply_code_99 = inr s /\
               Status_tape_info s = NO_TAPE).
Proof.
  repeat split; try reflexivity.
  intros (s & Hs & _). vm_compute in Hs. discriminate Hs.
Qed.

(** C5.  For all error bytes, with [value = byte1 | byte2 << 8]: each
    named flag is the bit of [value] at its position among 0, 2, 3, 6, 8, 12
    and 13 (looking a flag up never raises); [ready()] is true exactly when
    none of those bits is set; bits of [value] outside the mask change
    neither the flags nor [ready()]; for byte values, bits 0 to 7 of [value]
    are those of [byte1] and bits 8 and up those of [byte2].  In particular
    [byte1 = 1] makes [no_media] true and [ready()] false, and two zero
    bytes make [ready()] true.  The error bytes of a decoded status are
    bytes 8 and 9 of the buffer. *)
Theorem errors_flags_and_ready (byte1 byte2 : Z) :
  let value := Z.lor byte1 (Z.shiftl byte2 8) in
  let errors := Errors_init byte1 byte2 in
  (Errors_getattr errors "no_media" = inr (Z.testbit value 0) /\
   Errors_getattr errors "cutter_jam" = inr (Z.testbit value 2) /\
   Errors_getattr errors "weak_battery" = inr (Z.testbit value 3) /\
   Errors_getattr errors "hv_adapter" = inr (Z.testbit value 6) /\
   Errors_getattr errors "replace_media" = inr (Z.testbit value 8) /\
   Errors_getattr errors "cover_open" = inr (Z.testbit value 12) /\
   Errors_getattr errors "overheating" = inr (Z.testbit value 13)) /\
  (forall data tape,
     Status_ready (mkStatus data errors tape) = true <->
     Forall (fun k => Z.testbit value k = false) [0; 2; 3; 6; 8; 12; 13]) /\
  (forall c1 c2,
     Z.land (Z.lor c1 (Z.shiftl c2 8)) 12621 = Z.land value 12621 ->
     Errors_init c1 c2 = errors) /\
  (0 <= byte1 < 256 ->
   forall k, 0 <= k ->
     Z.testbit value k =
     if k <? 8 then Z.testbit byte1 k else Z.testbit byte2 (k - 8)) /\
  (byte1 = 1 ->
   Errors_getattr errors "no_media" = inr true /\
   forall data tape, Status_ready (mkStatus data errors tape) = false) /\
  (byte1 = 0 -> byte2 = 0 ->
   forall data tape, Status_ready (mkStatus data errors tape) = true) /\
  (forall msg s,
     Status_init msg = inr s ->
     byte_val (nth 8 msg x00) = byte1 ->
     byte_val (nth 9 msg x00) = byte2 ->
     Status_errors s = errors).
Proof.
  intros value errors.
  assert (He : errors = mkErrors (error_flags value))
    by apply Errors_init_flags.
  split; [|split; [|split; [|split; [|split; [|split]]]]].
  - rewrite He. repeat split; reflexivity.
  - intros data tape. unfold errors. rewrite Status_ready_flags.
    fold value. rewrite !Forall_cons, negb_true_iff, !orb_false_iff.
    intuition auto using Forall_nil.
  - intros c1 c2 Hmask. rewrite He, Errors_init_flags. f_equal.
    apply error_flags_mask, Hmask.
  - intros Hb k Hk. apply error_value_bits; assumption.
  - intros H1. subst byte1.
    assert (Hbit : Z.testbit value 0 = true).
    { unfold value. rewrite Z.lor_spec, Z.shiftl_spec by lia. reflexivity. }
    split.
    + replace (Errors_getattr errors "no_media")
        with (inr (Z.testbit value 0) : res bool)
        by (rewrite He; reflexivity).
      rewrite Hbit. reflexivity.
    + intros data tape. unfold errors. rewrite Status_ready_flags.
      cbv zeta. unfold value in Hbit. rewrite Hbit. reflexivity.
  - intros -> -> data tape. reflexivity.
  - intros msg s Hs <- <-. apply (Status_init_inv _ _ Hs).
Qed.

(** C6.  For every 32-byte status buffer the dictionary that
    [Status.__init__] builds holds, under each field name, the byte of the
    buffer at the field's offset (0, 4, 8, 9, 10, 11, 15, 17, 18, 19, 20, 21,
    22, 26); it is the [data] of every status decoded from the buffer, whose
    [tape_info] is the table entry of byte 10, and a status is decoded
    whenever byte 10 is a code of the table.  In particular byte 10 equal to
    24 decodes to [media_width == 24] with [tape_info] (0, 128, 0, 24.0). *)
Theorem status_fields_at_offsets (msg : bytes) :
  length msg = 32%nat ->
  let at_ (i : nat) := byte_val (nth i msg x00) in
  exists data,
    Status_fields msg = inr data /\
    (data !! "printhead_mark"%string = Some (at_ 0%nat) /\
     data !! "model_code"%string = Some (at_ 4%nat) /\
     data !! "error_1"%string = Some (at_ 8%nat) /\
     data !! "error_2"%string = Some (at_ 9%nat) /\
     data !! "media_width"%string = Some (at_ 10%nat) /\
     data !! "media_type"%string = Some (at_ 11%nat) /\
     data !! "mode"%string = Some (at_ 15%nat) /\
     data !! "media_length"%string = Some (at_ 17%nat) /\
     data !! "status_type"%string = Some (at_ 18%nat) /\
     data !! "phase_type"%string = Some (at_ 19%nat) /\
     data !! "phase_number_hi"%string = Some (at_ 20%nat) /\
     data !! "phase_number_lo"%string = Some (at_ 21%nat) /\
     data !! "notify_no"%string = Some (at_ 22%nat) /\
     data !! "hardware_settings"%string = Some (at_ 26%nat)) /\
    (forall s, Status_init msg = inr s ->
       Status_data s = data /\
       Status_getattr s "media_width" = inr (at_ 10%nat) /\
       MEDIA_WIDTH_INFO !! at_ 10%nat = Some (Status_tape_info s)) /\
    (In (at_ 10%nat) [0; 4; 6; 9; 12; 18; 24] ->
     exists s, Status_init msg = inr s) /\
    (at_ 10%nat = 24 ->
     exists s, Status_init msg = inr s /\
       Status_getattr s "media_width" = inr 24 /\
       Status_tape_info s =
         mkTapeInfo (Some 0) (Some 128) (Some 0) (Some (Qmake 24 1))).
Proof.
  intros Hl at_. assert (Hl' : (27 <= length msg)%nat) by lia.
  exists (status_fields msg).
  split; [apply Status_fields_long, Hl'|].
  split; [repeat split; reflexivity|].
  assert (Hinv : forall s, Status_init msg = inr s ->
            Status_data s = status_fields msg /\
            Status_getattr s "media_width" = inr (at_ 10%nat) /\
            MEDIA_WIDTH_INFO !! at_ 10%nat = Some (Status_tape_info s)).
  { intros s Hs. apply Status_init_inv in Hs as (_ & Hd & _ & Ht).
    split; [exact Hd|]. split; [|exact Ht].
    unfold Status_getattr. rewrite Hd. reflexivity. }
  split; [exact Hinv|]. split.
  - apply Status_init_known, Hl'.
  - intros H24.
    destruct (Status_init_known msg Hl') as [s Hs].
    { fold (at_ 10%nat). rewrite H24. simpl. tauto. }
    exists s. split; [exact Hs|].
    destruct (Hinv s Hs) as (_ & Hw & Ht). rewrite H24 in Hw, Ht.
    split; [exact Hw|]. injection Ht as <-. reflexivity.
Qed.

(** C6 at a buffer with byte 10 equal to 24. *)
Lemma status_fields_at_offsets_witness :
  exists s, Status_init reply_24mm = inr s /\
    Status_getattr s "media_width" = inr 24 /\
    Status_tape_info s =
      mkTapeInfo (Some 0) (Some 128) (Some 0) (Some (Qmake 24 1)).
Proof.
  destruct (status_fields_at_offsets reply_24mm eq_refl)
    as (data & _ & _ & _ & _ & H24).
  apply H24. reflexivity.
Defined.

(** C7, as amended.  For a tape with right margin [r >= 0] and a line of
    [n] bytes [FF] with [8 n + r <= 128], the padded 16-byte buffer of
    [encode_line] is the all-ones value shifted left by [r] bits: its
    lowest [r] bits are clear, the next [8 n] bits are set, and the bits
    above them, the left margin, are clear (zero padding); all remaining
    high bits of the buffer are set exactly when [8 n + r = 128]. *)
Theorem encode_line_margin_bits (n : nat) (tape : TapeInfo) (r : Z) :
  rmargin tape = Some r ->
  0 <= r ->
  8 * Z.of_nat n + r <= 128 ->
  exists padded,
    encode_line_padded (replicate n xff) tape = inr padded /\
    length padded = 16%nat /\
    int_from_bytes_big padded = Z.shiftl (Z.ones (8 * Z.of_nat n)) r /\
    (forall i, 0 <= i ->
       Z.testbit (int_from_bytes_big padded) i =
       (r <=? i) && (i <? r + 8 * Z.of_nat n)) /\
    (8 * Z.of_nat n + r = 128 ->
     forall i, 0 <= i < 128 ->
       Z.testbit (int_from_bytes_big padded) i = (r <=? i)).
Proof.
  intros Hr Hr0 Hfit.
  assert (Hbits : forall i, 0 <= i ->
            Z.testbit (Z.shiftl (Z.ones (8 * Z.of_nat n)) r) i =
            (r <=? i) && (i <? r + 8 * Z.of_nat n)).
  { intros i Hi. rewrite Z.shiftl_spec by lia.
    destruct (Z.leb_spec r i).
    - rewrite Z.testbit_ones_nonneg by lia.
      simpl. apply eq_iff_eq_true. rewrite !Z.ltb_lt. lia.
    - rewrite Z.testbit_neg_r by lia. reflexivity. }
  destruct (encode_line_padded_ok (replicate n xff) tape r Hr Hr0)
    as (padded & Hpad & Hlen & Hval).
  { rewrite int_from_bytes_big_ones, Z.shiftl_mul_pow2, Z.ones_equiv by lia.
    assert (2 ^ (8 * Z.of_nat n) * 2 ^ r <= 2 ^ 128).
    { rewrite <- Z.pow_add_r by lia. apply Z.pow_le_mono_r; lia. }
    assert (0 < 2 ^ r) by (apply Z.pow_pos_nonneg; lia).
    nia. }
  rewrite int_from_bytes_big_ones in Hval.
  exists padded. rewrite Hval. repeat split; try assumption.
  intros Hfull i Hi. rewrite Hbits by lia.
  destruct (Z.leb_spec r i); simpl; [|reflexivity].
  apply Z.ltb_lt. lia.
Qed.

(** The amended C7 at a 14-byte line on 18 mm tape. *)
Lemma encode_line_margin_bits_witness :
  exists padded,
    encode_line_padded (replicate 14 xff) tape_18mm = inr padded /\
    length padded = 16%nat /\
    int_from_bytes_big padded = Z.shiftl (Z.ones (8 * Z.of_nat 14)) 8 /\
    (forall i, 0 <= i ->
       Z.testbit (int_from_bytes_big padded) i =
       (8 <=? i) && (i <? 8 + 8 * Z.of_nat 14)) /\
    (8 * Z.of_nat 14 + 8 = 128 ->
     forall i, 0 <= i < 128 ->
       Z.testbit (int_from_bytes_big padded) i = (8 <=? i)).
Proof.
  apply (encode_line_margin_bits 14 tape_18mm 8).
  - reflexivity.
  - lia.
  - lia.
Defined.

(** C7 as stated fails: on 18 mm tape (right margin 8) a line of 14 bytes
    [FF], the full print area of 112 dots, gives a buffer whose bit 127 is
    clear, not set: the bits above the shifted line are the zero padding of
    the left margin. *)
Lemma margin_high_bits_counterexample :
  rmargin tape_18mm = Some 8 /\
  encode_line_padded (replicate 14 xff) tape_18mm =
    inr ([x00] ++ replicate 14 xff ++ [x00]) /\
  ~ (exists padded,
       encode_line_padded (replicate 14 xff) tape_18mm = inr padded /\
       forall i, 0 <= i < 128 ->
         Z.testbit (int_from_bytes_big padded) i = (8 <=? i)).
Proof.
  split; [reflexivity|]. split; [vm_compute; reflexivity|].
  intros (padded & Hpad & Hbits).
  vm_compute in Hpad. injection Hpad as <-.
  specialize (Hbits 127 ltac:(lia)). vm_compute in Hbits. discriminate Hbits.
Qed.

(** C8.  If the status that [print_label] obtains from [get_status] is not
    ready, [print_label] raises [IOError("Printer is not ready")] in the very
    state [get_status] left: nothing was rendered, and the only writes are
    the reset and the status request of [get_status]; no command of the
    print sequence and no raster line was written. *)
Theorem print_label_not_ready
    (Image_transpose : Transpose -> Image -> Image)
    (ImageChops_invert : Image -> Image)
    (label : Label) (w w1 : world) (status : Status) :
  P700.get_status w = (inr status, w1) ->
  Status_ready status = false ->
  P700.print_label Image_transpose ImageChops_invert label w =
    (inl (IOError "Printer is not ready"), w1) /\
  written w1 =
    written w ++ [CMD_INVALIDATE; CMD_INITIALIZE; CMD_STATUS_REQUEST] /\
  rendered w1 = rendered w.
Proof.
  intros Hst Hnot. split.
  - unfold P700.print_label. rewrite (M_bind_ok _ _ _ _ _ Hst).
    rewrite Hnot. reflexivity.
  - rewrite get_status_eq in Hst. injection Hst as _ <-. split; reflexivity.
Qed.

(** C8 at a device that answers with the no-media bit set. *)
Lemma print_label_not_ready_witness :
  let w := mkWorld [] [reply_no_media] [] in
  let w1 :=
    mkWorld [CMD_INVALIDATE; CMD_INITIALIZE; CMD_STATUS_REQUEST] [] [] in
  P700.print_label (fun _ img => img) (fun img => img) blank_label w =
    (inl (IOError "Printer is not ready"), w1) /\
  written w1 =
    written w ++ [CMD_INVALIDATE; CMD_INITIALIZE; CMD_STATUS_REQUEST] /\
  rendered w1 = rendered w.
Proof.
  apply (print_label_not_ready (fun _ img => img) (fun img => img)
           blank_label (mkWorld [] [reply_no_media] [])
           (mkWorld [CMD_INVALIDATE; CMD_INITIALIZE; CMD_STATUS_REQUEST] [] [])
           status_no_media).
  - vm_compute. reflexivity.
  - vm_compute. reflexivity.
Defined.

(** C9, as amended.  For every transport: when the reply to the status
    request has fewer than 32 bytes (none included), [get_status] raises
    [IOError]; when it has at least 32 bytes and its media-width code is in
    the table, [get_status] returns the status decoded from it; when the
    code is not in the table, [get_status] raises [KeyError]; and whenever
    [get_status] returns a status, the reply had at least 32 bytes and the
    status is the one decoded from it. *)
Theorem get_status_reply (w : world) :
  let reply := next_reply w in
  let code := byte_val (nth 10 reply x00) in
  ((length reply < 32)%nat ->
   exists msg w', P700.get_status w = (inl (IOError msg), w')) /\
  ((32 <= length reply)%nat -> In code [0; 4; 6; 9; 12; 18; 24] ->
   exists s w', P700.get_status w = (inr s, w') /\ Status_init reply = inr s) /\
  ((32 <= length reply)%nat -> ~ In code [0; 4; 6; 9; 12; 18; 24] ->
   exists w', P700.get_status w = (inl (KeyError (KInt code)), w')) /\
  (forall s w', P700.get_status w = (inr s, w') ->
     (32 <= length reply)%nat /\ Status_init reply = inr s).
Proof.
  intros reply code. rewrite get_status_eq. fold reply.
  unfold code. clear code. clearbody reply.
  destruct (Nat.le_gt_cases 32 (length reply)) as [Hge|Hlt].
  - assert (Hres : match reply with
                   | [] => inl (IOError "No Response from printer")
                   | _ :: _ =>
                       if (length reply <? 32)%nat
                       then inl (IOError "Invalid Response from printer")
                       else Status_init reply
                   end = Status_init reply).
    { destruct reply as [|b reply']; [simpl in Hge; lia|].
      destruct (Nat.ltb_spec (length (b :: reply')) 32); [lia | reflexivity]. }
    rewrite Hres. split; [|split; [|split]].
    + lia.
    + intros _ Hk.
      destruct (Status_init_known reply ltac:(lia) Hk) as [s Hs].
      rewrite Hs. eauto.
    + intros _ Hk. rewrite Status_init_unknown by (assumption || lia).
      eauto.
    + intros s w' [= Hs _]. auto.
  - assert (Hres : exists msg,
              match reply with
              | [] => inl (IOError "No Response from printer")
              | _ :: _ =>
                  if (length reply <? 32)%nat
                  then inl (IOError "Invalid Response from printer")
                  else Status_init reply
              end = inl (IOError msg)).
    { destruct reply as [|b reply']; [eauto|].
      destruct (Nat.ltb_spec (length (b :: reply')) 32); [eauto | lia]. }
    destruct Hres as [msg ->]. split; [|split; [|split]].
    + intros _. eauto.
    + lia.
    + lia.
    + intros s w' [=].
Qed.

(** C9 as stated fails: a transport that answers with 32 bytes whose media
    code is 99 gets no status back from [get_status]. *)
Lemma get_status_unknown_media_counterexample :
  let w := mkWorld [] [reply_code_99] [] in
  next_reply w = reply_code_99 /\
  length reply_code_99 = 32%nat /\
  ~ (exists s w', P700.get_status w = (inr s, w')).
Proof.
  repeat split. intros (s & w' & H). vm_compute in H. discriminate H.
Qed.

(** C10.  For every line and tape with right margin [r]: if the line's
    value shifted by [r] is at least [2^128], [encode_line] raises
    ([OverflowError], or [ValueError] for a negative [r]) and returns
    nothing; and whatever [encode_line] returns, the bytes after its
    two-byte prefix decompress to a 16-byte buffer whose big-endian value is
    the shifted value of the line, with no bit lost. *)
Theorem encode_line_no_truncation (line : bytes) (tape : TapeInfo) (r : Z) :
  rmargin tape = Some r ->
  (2 ^ 128 <= Z.shiftl (int_from_bytes_big line) r ->
   encode_line line tape =
   inl (if r <? 0 then ValueError "negative shift count" else OverflowError))
  /\
  (forall out, encode_line line tape = inr out ->
     exists padded,
       packbits.decode (drop 2 out) = inr padded /\
       length padded = 16%nat /\
       int_from_bytes_big padded = Z.shiftl (int_from_bytes_big line) r).
Proof.
  intros Hr. split.
  - intros Hbig. unfold encode_line, encode_line_padded, int_lshift.
    rewrite Hr. destruct (r <? 0) eqn:Er; [reflexivity|].
    cbn. unfold int_to_bytes_big.
    destruct (Z.shiftl (int_from_bytes_big line) r <? 0) eqn:E1; [reflexivity|].
    change (256 ^ Z.of_nat 16) with (2 ^ 128).
    destruct (2 ^ 128 <=? Z.shiftl (int_from_bytes_big line) r) eqn:E2;
      [reflexivity | lia].
  - intros out Hout.
    apply encode_line_inv in Hout as (padded & p0 & p1 & Hpad & ->).
    apply encode_line_padded_inv in Hpad as (r' & Hr' & _ & _ & Hlen & Hval).
    rewrite Hr in Hr'. injection Hr' as <-.
    exists padded.
    change (drop 2 (p0 :: p1 :: packbits.encode padded))
      with (packbits.encode padded).
    rewrite decode_encode. auto.
Qed.

(** C10 at a full row of 16 bytes [FF] on 18 mm tape. *)
Lemma encode_line_no_truncation_witness :
  encode_line (replicate 16 xff) tape_18mm = inl OverflowError.
Proof.
  apply (proj1 (encode_line_no_truncation (replicate 16 xff) tape_18mm 8
                  eq_refl)).
  vm_compute. discriminate.
Defined.

(** * Further properties of the driver *)

(** ** Cutting the image into rows *)

Lemma batch_chunks_nil fuel size : batch_chunks fuel [] size = [].
Proof. destruct fuel; [reflexivity|]. simpl. rewrite take_nil. reflexivity. Qed.

Lemma batch_chunks_step fuel b size :
  (0 < size)%nat -> b <> [] ->
  batch_chunks (S fuel) b size =
  take size b :: batch_chunks fuel (drop size b) size.
Proof.
  intros Hs Hb. cbn [batch_chunks].
  destruct (take size b) as [|x chunk] eqn:E; [|reflexivity].
  destruct b as [|y b]; [congruence|].
  destruct size; [lia | discriminate E].
Qed.

Lemma batch_chunks_concat fuel b size :
  (0 < size)%nat -> (length b < fuel)%nat ->
  concat (batch_chunks fuel b size) = b.
Proof.
  intros Hs. revert b. induction fuel as [|fuel IH]; intros b Hf; [lia|].
  destruct b as [|x b]; [rewrite batch_chunks_nil; reflexivity|].
  rewrite batch_chunks_step by (lia || discriminate).
  cbn [concat]. rewrite IH.
  - apply take_drop.
  - rewrite length_drop. simpl in *. lia.
Qed.

Lemma batch_chunks_lookup fuel b size i :
  (0 < size)%nat -> (length b < fuel)%nat ->
  batch_chunks fuel b size !! i =
  if decide (i * size < length b)%nat
  then Some (take size (drop (i * size) b))
  else None.
Proof.
  intros Hs. revert b i. induction fuel as [|fuel IH]; intros b i Hf; [lia|].
  destruct b as [|x b].
  - rewrite batch_chunks_nil.
    destruct (decide (i * size < length (@nil byte))%nat) as [H|H];
      [simpl in H; lia|].
    apply lookup_nil.
  - rewrite batch_chunks_step by (lia || discriminate).
    destruct i as [|i].
    + destruct (decide (0 * size < length (x :: b))%nat) as [H|H];
        [reflexivity | simpl in H; lia].
    + cbn [lookup list_lookup].
      rewrite IH by (rewrite length_drop; simpl in *; lia).
      rewrite length_drop, drop_drop.
      replace (size + i * size)%nat with (S i * size)%nat by lia.
      repeat case_decide; try reflexivity; lia.
Qed.

Lemma batch_chunks_lengths fuel b size :
  (0 < size)%nat -> (length b < fuel)%nat ->
  Forall (fun c => (1 <= length c <= size)%nat) (batch_chunks fuel b size).
Proof.
  intros Hs Hf. apply Forall_lookup. intros i c Hc.
  rewrite batch_chunks_lookup in Hc by assumption.
  case_decide; [|discriminate]. injection Hc as <-.
  rewrite length_take, length_drop. lia.
Qed.


(** ** Rows and margins *)

Lemma int_from_bytes_big_app a b :
  int_from_bytes_big (a ++ b) =
  int_from_bytes_big a * 256 ^ Z.of_nat (length b) + int_from_bytes_big b.
Proof.
  induction a as [|x a IH].
  - unfold int_from_bytes_big at 2. simpl. lia.
  - cbn [app]. rewrite !int_from_bytes_big_cons, IH, length_app.
    rewrite Nat2Z.inj_add, Z.pow_add_r by lia. lia.
Qed.

Lemma int_from_bytes_big_zeros_after b k :
  int_from_bytes_big (b ++ replicate k x00) =
  Z.shiftl (int_from_bytes_big b) (8 * Z.of_nat k).
Proof.
  rewrite int_from_bytes_big_app, length_replicate.
  rewrite <- (app_nil_r (replicate k x00)), int_from_bytes_big_zeros.
  rewrite Z.shiftl_mul_pow2 by lia.
  replace (2 ^ (8 * Z.of_nat k)) with (256 ^ Z.of_nat k)
    by (change 256 with (2 ^ 8); rewrite <- Z.pow_mul_r by lia; reflexivity).
  change (int_from_bytes_big []) with 0. lia.
Qed.

Lemma encode_line_padded_byte_margin line tape k :
  rmargin tape = Some (8 * Z.of_nat k) ->
  (length line + k <= 16)%nat ->
  encode_line_padded line tape =
  inr (replicate (16 - length line - k) x00 ++ line ++ replicate k x00).
Proof.
  intros Hr Hl.
  assert (Hv : int_from_bytes_big
                 (replicate (16 - length line - k) x00 ++ line ++
                  replicate k x00) =
               Z.shiftl (int_from_bytes_big line) (8 * Z.of_nat k))
    by (rewrite int_from_bytes_big_zeros; apply int_from_bytes_big_zeros_after).
  assert (Hlen : length (replicate (16 - length line - k) x00 ++ line ++
                         replicate k x00) = 16%nat)
    by (rewrite !length_app, !length_replicate; lia).
  destruct (encode_line_padded_ok line tape _ Hr)
    as (padded & Hpad & Hplen & Hpv).
  - lia.
  - rewrite <- Hv.
    pose proof (int_from_bytes_big_range
                  (replicate (16 - length line - k) x00 ++ line ++
                   replicate k x00)) as Hrange.
    rewrite Hlen in Hrange. change (2 ^ 128) with (256 ^ Z.of_nat 16). lia.
  - rewrite Hpad. f_equal. apply int_from_bytes_big_inj; congruence.
Qed.

Lemma encode_line_padded_leading_zeros k line tape :
  encode_line_padded (replicate k x00 ++ line) tape =
  encode_line_padded line tape.
Proof.
  unfold encode_line_padded. rewrite int_from_bytes_big_zeros. reflexivity.
Qed.

(** The rows of the print area fit the raster on every tape of the table. *)
Lemma MEDIA_WIDTH_INFO_cases k t :
  MEDIA_WIDTH_INFO !! k = Some t ->
  (k = 0 /\ t = NO_TAPE) \/
  (exists pa m, In (k, pa, m) [(4, 24, 52); (6, 32, 48); (9, 50, 39);
                               (12, 70, 29); (18, 112, 8); (24, 128, 0)] /\
     lmargin t = Some m /\ printarea t = Some pa /\ rmargin t = Some m).
Proof.
  intros H.
  destruct (decide (In k [0; 4; 6; 9; 12; 18; 24])) as [Hk|Hk].
  - simpl in Hk.
    destruct Hk as [<-|[<-|[<-|[<-|[<-|[<-|[<-|[]]]]]]]];
      injection H as <-;
      first [ left; split; reflexivity
            | right; do 2 eexists; split; [|repeat split]; simpl; tauto ].
  - rewrite MEDIA_WIDTH_INFO_unknown in H by exact Hk. discriminate.
Qed.

Lemma table_row_fits k t pa r line :
  MEDIA_WIDTH_INFO !! k = Some t ->
  printarea t = Some pa -> rmargin t = Some r ->
  Z.of_nat (length line) <= ceil_div8 pa ->
  0 <= r /\ Z.shiftl (int_from_bytes_big line) r < 2 ^ 128.
Proof.
  intros Hk Hpa Hr Hl.
  assert (Hb : 0 <= r /\ 8 * ceil_div8 pa + r <= 128).
  { destruct (MEDIA_WIDTH_INFO_cases _ _ Hk)
      as [[_ ->]|(pa' & m & Hin & _ & Hpa' & Hm)].
    - discriminate.
    - rewrite Hpa in Hpa'. rewrite Hr in Hm.
      injection Hpa' as <-. injection Hm as <-. simpl in Hin.
      destruct Hin as [H|[H|[H|[H|[H|[H|[]]]]]]]; injection H as <- <- <-;
        vm_compute; split; discriminate. }
  destruct Hb as [Hr0 Hb]. split; [exact Hr0|].
  pose proof (int_from_bytes_big_range line) as [Hv0 Hv].
  rewrite Z.shiftl_mul_pow2 by lia.
  assert (H1 : 256 ^ Z.of_nat (length line) <= 2 ^ (8 * ceil_div8 pa)).
  { change 256 with (2 ^ 8). rewrite <- Z.pow_mul_r by lia.
    apply Z.pow_le_mono_r; lia. }
  assert (H2 : 2 ^ (8 * ceil_div8 pa) * 2 ^ r <= 2 ^ 128).
  { rewrite <- Z.pow_add_r by lia. apply Z.pow_le_mono_r; lia. }
  assert (0 < 2 ^ r) by (apply Z.pow_pos_nonneg; lia).
  nia.
Qed.

(** ** Attributes of the decoded status *)






Lemma status_fields_ext msg msg' :
  Forall (fun i => msg !! i = msg' !! i) STATUS_OFFSETS ->
  status_fields msg = status_fields msg'.
Proof.
  intros H. unfold status_fields.
  assert (Hnth : forall i, In i STATUS_OFFSETS ->
                   nth i msg x00 = nth i msg' x00).
  { intros i Hi. rewrite !nth_lookup.
    rewrite Forall_forall in H. rewrite (H i); [reflexivity|].
    apply list_elem_of_In, Hi. }
  cbv zeta.
  rewrite (Hnth 0%nat), (Hnth 4%nat), (Hnth 8%nat), (Hnth 9%nat),
    (Hnth 10%nat), (Hnth 11%nat), (Hnth 15%nat), (Hnth 17%nat),
    (Hnth 18%nat), (Hnth 19%nat), (Hnth 20%nat), (Hnth 21%nat),
    (Hnth 22%nat), (Hnth 26%nat) by (simpl; tauto).
  reflexivity.
Qed.

Lemma Status_init_ext msg msg' :
  (27 <= length msg)%nat -> (27 <= length msg')%nat ->
  Forall (fun i => msg !! i = msg' !! i) STATUS_OFFSETS ->
  Status_init msg = Status_init msg'.
Proof.
  intros Hl Hl' H. rewrite !Status_init_long by assumption.
  rewrite (status_fields_ext _ _ H).
  assert (Hnth : forall i, In i STATUS_OFFSETS ->
                   nth i msg x00 = nth i msg' x00).
  { intros i Hi. rewrite !nth_lookup.
    rewrite Forall_forall in H. rewrite (H i); [reflexivity|].
    apply list_elem_of_In, Hi. }
  rewrite (Hnth 8%nat), (Hnth 9%nat), (Hnth 10%nat) by (simpl; tauto).
  reflexivity.
Qed.

(** ** Runs that stop early *)

Lemma debug_status_eq w :
  P700._debug_status w =
  (match next_reply w with
   | [] => inr tt
   | _ :: _ => Status_init (next_reply w);; mret tt
   end,
   mkWorld (written w) (tail (pending w)) (rendered w)).
Proof.
  unfold P700._debug_status, next_reply, mbind at 1, M_bind, backend_read, lift.
  destruct w as [wr [|reply rest] rd]; cbn [written pending rendered tail].
  - reflexivity.
  - destruct reply as [|b reply]; [reflexivity|].
    destruct (Status_init (b :: reply)); reflexivity.
Qed.

Lemma range0_pos count :
  1 <= count -> range0 count = 0 :: map Z.of_nat (seq 1 (Z.to_nat (count - 1))).
Proof.
  intros H. unfold range0.
  replace (Z.to_nat count) with (S (Z.to_nat (count - 1))) by lia.
  reflexivity.
Qed.

Lemma range0_nonpos count : count <= 0 -> range0 count = [].
Proof.
  intros H. unfold range0. replace (Z.to_nat count) with 0%nat by lia.
  reflexivity.
Qed.

(** The raster loop stops at the first line that does not encode. *)
Lemma raster_lines_raise status good chunks bad e rest w :
  Forall2 (fun line chunk =>
             encode_line line (Status_tape_info status) = inr chunk)
          good chunks ->
  encode_line bad (Status_tape_info status) = inl e ->
  for_each (good ++ bad :: rest) (P700.raster_line status) w =
  (inl e, mkWorld (written w ++ map (cons RASTER_MARK) chunks) (pending w)
            (rendered w)).
Proof.
  intros Hall Hbad. revert w.
  induction Hall as [|line chunk good chunks Hl _ IH]; intros w.
  - cbn [app for_each map]. unfold P700.raster_line, mbind, M_bind, lift.
    rewrite Hbad, app_nil_r. destruct w; reflexivity.
  - cbn [app for_each map].
    rewrite (M_bind_ok _ _ _ _ _ (raster_line_ok status line chunk w Hl)).
    rewrite IH. cbn [written pending rendered].
    rewrite <- app_assoc. reflexivity.
Qed.

(** The commands that open a page, on a silent device. *)
Lemma print_page_head status document count i w :
  pending w = [] ->
  P700.print_page status document count i w =
  (for_each document (P700.raster_line status);;
   backend_write CMD_END_PAGE;;
   (if i <? count - 1 then backend_write CMD_FORM_FEED else mret tt))
    (mkWorld
       (written w ++
        [CMD_DYNAMIC_MODE; CMD_PRINT_INFORMATION] ++
        (if i =? 0 then [CMD_PRINT_INFORMATION] else []) ++
        [CMD_AUTOCUT; CMD_CUT_EVERY; CMD_ADVANCED_MODE; CMD_MARGIN;
         CMD_COMPRESSION])
       [] (rendered w)).
Proof.
  intros Hq. destruct w as [wr pd rd]. simpl in Hq. subst pd.
  unfold P700.print_page.
  destruct (i =? 0);
    repeat (erewrite M_bind_ok by reflexivity; cbv beta);
    cbn [written pending rendered]; rewrite <- !app_assoc; reflexivity.
Qed.

(** A document encodes line by line, or has a first line that does not. *)
Lemma encode_document tape (document : list bytes) :
  (exists chunks,
     Forall2 (fun line chunk => encode_line line tape = inr chunk)
             document chunks) \/
  (exists good chunks bad e rest,
     document = good ++ bad :: rest /\
     Forall2 (fun line chunk => encode_line line tape = inr chunk)
             good chunks /\
     encode_line bad tape = inl e).
Proof.
  induction document as [|line document IH].
  - left. exists []. constructor.
  - destruct (encode_line line tape) as [e|chunk] eqn:El.
    + right. exists [], [], line, e, document.
      split; [reflexivity|]. split; [constructor | exact El].
    + destruct IH
        as [[chunks Hall]|(good & chunks & bad & e & rest & -> & Hall & Hbad)].
      * left. exists (chunk :: chunks). constructor; assumption.
      * right. exists (line :: good), (chunk :: chunks), bad, e, rest.
        split; [reflexivity|]. split; [constructor; assumption | exact Hbad].
Qed.

Lemma raw_print_stray_reply status document count w b reply rest e :
  pending w = (b :: reply) :: rest ->
  Status_init (b :: reply) = inl e ->
  1 <= count ->
  P700._raw_print status document count w =
  (inl e,
   mkWorld (written w ++ [CMD_INVALIDATE; CMD_INITIALIZE; CMD_DYNAMIC_MODE])
     rest (rendered w)).
Proof.
  intros Hp He Hc. destruct w as [wr pd rd]. simpl in Hp. subst pd.
  unfold P700._raw_print, P700.reset.
  repeat (erewrite M_bind_ok by reflexivity; cbv beta).
  apply M_bind_raise. rewrite range0_pos by exact Hc. cbn [for_each].
  apply M_bind_raise. unfold P700.print_page.
  erewrite M_bind_ok by reflexivity. cbv beta.
  apply M_bind_raise. rewrite debug_status_eq.
  unfold next_reply. cbn [written pending rendered tail]. rewrite He.
  rewrite <- !app_assoc. reflexivity.
Qed.

Lemma raw_print_bad_line status document count w good chunks bad e rest :
  pending w = [] ->
  document = good ++ bad :: rest ->
  Forall2 (fun line chunk =>
             encode_line line (Status_tape_info status) = inr chunk)
          good chunks ->
  encode_line bad (Status_tape_info status) = inl e ->
  1 <= count ->
  P700._raw_print status document count w =
  (inl e,
   mkWorld (written w ++ [CMD_INVALIDATE; CMD_INITIALIZE] ++ FIRST_PAGE_HEAD ++
            map (cons RASTER_MARK) chunks)
     [] (rendered w)).
Proof.
  intros Hp -> Hall Hbad Hc. destruct w as [wr pd rd]. simpl in Hp. subst pd.
  unfold P700._raw_print, P700.reset.
  repeat (erewrite M_bind_ok by reflexivity; cbv beta).
  apply M_bind_raise. rewrite range0_pos by exact Hc. cbn [for_each].
  apply M_bind_raise. rewrite print_page_head by reflexivity.
  apply M_bind_raise.
  rewrite (raster_lines_raise _ _ _ _ _ _ _ Hall Hbad).
  cbn [written pending rendered]. change (0 =? 0) with true. cbv iota.
  unfold FIRST_PAGE_HEAD. rewrite <- !app_assoc. reflexivity.
Qed.

Lemma raw_print_no_copies status document count w :
  pending w = [] -> count <= 0 ->
  P700._raw_print status document count w =
  (inr tt,
   mkWorld (written w ++ [CMD_INVALIDATE; CMD_INITIALIZE; CMD_END_JOB]) []
     (rendered w)).
Proof.
  intros Hp Hc. destruct w as [wr pd rd]. simpl in Hp. subst pd.
  unfold P700._raw_print, P700.reset. rewrite range0_nonpos by exact Hc.
  cbn [for_each].
  repeat (erewrite M_bind_ok by reflexivity; cbv beta).
  cbn. rewrite <- !app_assoc. reflexivity.
Qed.

Lemma raw_print_encodes status document count w w' :
  P700._raw_print status document count w = (inr tt, w') ->
  1 <= count ->
  exists chunks,
    Forall2 (fun line chunk =>
               encode_line line (Status_tape_info status) = inr chunk)
            document chunks.
Proof.
  intros Hrun Hcount. unfold P700._raw_print in Hrun.
  destruct (reset_spec w) as (w0 & Hreset & _ & _).
  rewrite (M_bind_ok _ _ _ _ _ Hreset) in Hrun.
  run_step Hrun. rewrite range0_pos in Hs by exact Hcount.
  cbn [for_each] in Hs. run_step Hs.
  apply print_page_inv in Hs0 as (chunks & Hall & _). eauto.
Qed.

(** ** The dry run *)

Lemma dummy_print_ok status document chunks w :
  Forall2 (fun line chunk =>
             encode_line line (Status_tape_info status) = inr chunk)
          document chunks ->
  P700._dummy_print status document w = (inr tt, w).
Proof.
  unfold P700._dummy_print.
  induction 1 as [|line chunk document chunks Hl _ IH]; [reflexivity|].
  cbn [for_each]. unfold mbind at 1 2, M_bind, lift. rewrite Hl. exact IH.
Qed.

Lemma dummy_print_raise status good chunks bad e rest w :
  Forall2 (fun line chunk =>
             encode_line line (Status_tape_info status) = inr chunk)
          good chunks ->
  encode_line bad (Status_tape_info status) = inl e ->
  P700._dummy_print status (good ++ bad :: rest) w = (inl e, w).
Proof.
  unfold P700._dummy_print. intros Hall Hbad.
  induction Hall as [|line chunk good chunks Hl _ IH].
  - cbn [app for_each]. unfold mbind, M_bind, lift. rewrite Hbad. reflexivity.
  - cbn [app for_each]. unfold mbind at 1 2, M_bind, lift. rewrite Hl.
    exact IH.
Qed.

Lemma get_status_decoded w reply rest status :
  pending w = reply :: rest ->
  (32 <= length reply)%nat ->
  Status_init reply = inr status ->
  P700.get_status w =
  (inr status,
   mkWorld (written w ++ [CMD_INVALIDATE; CMD_INITIALIZE; CMD_STATUS_REQUEST])
     rest (rendered w)).
Proof.
  intros Hp Hl Hs. rewrite get_status_eq. unfold next_reply. rewrite Hp.
  cbn [tail]. destruct reply as [|b reply]; [simpl in Hl; lia|].
  destruct (Nat.ltb_spec (length (b :: reply)) 32); [lia|].
  rewrite Hs. reflexivity.
Qed.

(** ** Printing a label *)

Section print_label_facts.

Variable Image_transpose : Transpose -> Image -> Image.
Variable ImageChops_invert : Image -> Image.

(** [print_label] once the status is there and ready. *)
Lemma print_label_ready label w status w1 :
  P700.get_status w = (inr status, w1) ->
  Status_ready status = true ->
  P700.print_label Image_transpose ImageChops_invert label w =
  let height := printarea (Status_tape_info status) in
  let w2 := mkWorld (written w1) (pending w1) (rendered w1 ++ [height]) in
  match Label_render label height with
  | inl e => (inl e, w2)
  | inr img =>
      if String.eqb (Image_mode img) "1" then
        let img' := print_image Image_transpose ImageChops_invert img in
        match batch_iter_bytes (Image_tobytes img')
                (ceil_div8 (Image_size img').1) with
        | inl e => (inl e, w2)
        | inr document => P700._raw_print status document 1 w2
        end
      else (inl (ValueError "render output has invalid mode '1'"), w2)
  end.
Proof.
  intros Hst Hready. unfold P700.print_label.
  rewrite (M_bind_ok _ _ _ _ _ Hst). rewrite Hready. cbn [negb].
  unfold mbind at 1, M_bind, render_call.
  destruct (Label_render label (printarea (Status_tape_info status)))
    as [e|img]; [reflexivity|].
  cbv zeta. destruct (String.eqb (Image_mode img) "1"); [|reflexivity].
  cbn [negb]. unfold mbind at 1, M_bind, lift, print_image.
  destruct (batch_iter_bytes _ _); reflexivity.
Qed.

Lemma batch_iter_bytes_rows_short b width :
  0 <= width ->
  exists document,
    batch_iter_bytes b (ceil_div8 width) = inr document /\
    Forall (fun row => Z.of_nat (length row) <= ceil_div8 width) document /\
    (0 < width -> concat document = b).
Proof.
  intros Hw. unfold batch_iter_bytes.
  assert (Hs : 0 <= ceil_div8 width)
    by (unfold ceil_div8; apply Z.div_pos; lia).
  destruct (ceil_div8 width <? 0) eqn:E; [lia|].
  eexists. split; [reflexivity|].
  destruct (Z.eq_dec (ceil_div8 width) 0) as [H0|H0].
  - rewrite H0. split.
    + simpl. constructor.
    + intros Hpos. exfalso. unfold ceil_div8 in H0.
      assert (1 <= (width + 7) / 8) by (apply Z.div_le_lower_bound; lia). lia.
  - split.
    + eapply Forall_impl;
        [apply batch_chunks_lengths; lia | simpl; intros row Hrow; lia].
    + intros _. apply batch_chunks_concat; lia.
Qed.

Lemma rows_encode k t pa document :
  MEDIA_WIDTH_INFO !! k = Some t ->
  printarea t = Some pa ->
  Forall (fun row => Z.of_nat (length row) <= ceil_div8 pa) document ->
  exists chunks,
    Forall2 (fun line chunk => encode_line line t = inr chunk) document chunks.
Proof.
  intros Hk Hpa.
  assert (Hr : exists r, rmargin t = Some r).
  { destruct (MEDIA_WIDTH_INFO_cases _ _ Hk)
      as [[_ ->]|(? & m & _ & _ & _ & ->)];
      [discriminate | eauto]. }
  destruct Hr as [r Hr].
  induction 1 as [|row document Hrow _ (chunks & IH)].
  - exists []. constructor.
  - destruct (table_row_fits _ _ _ _ _ Hk Hpa Hr Hrow) as [Hr0 Hfit].
    destruct (encode_line_padded_ok row t r Hr Hr0 Hfit) as (padded & Hpad & _).
    destruct (encode_line_of_padded _ _ _ Hpad) as (p0 & p1 & Henc & _).
    eexists (_ :: chunks). constructor; eassumption.
Qed.

End print_label_facts.

(** ** The properties *)


(** X2.  Zero bytes in front of a row do not change what [encode_line]
    returns or raises: only the value of the row counts, not its length. *)
Theorem encode_line_leading_zeros (k : nat) (line : bytes) (tape : TapeInfo) :
  encode_line (replicate k x00 ++ line) tape = encode_line line tape.
Proof.
  unfold encode_line. rewrite encode_line_padded_leading_zeros. reflexivity.
Qed.

(** X3.  When the right margin is a whole number [k] of bytes and the row
    with the margin fits in 16 bytes, the raster line that [encode_line]
    compresses is the row moved as it is: zero bytes on the left, the row,
    [k] zero bytes on the right. *)
Theorem encode_line_byte_margin (line : bytes) (tape : TapeInfo) (k : nat) :
  rmargin tape = Some (8 * Z.of_nat k) ->
  (length line + k <= 16)%nat ->
  let padded :=
    replicate (16 - length line - k) x00 ++ line ++ replicate k x00 in
  encode_line_padded line tape = inr padded /\
  exists p0 p1,
    encode_line line tape = inr (p0 :: p1 :: packbits.encode padded).
Proof.
  intros Hr Hl padded.
  pose proof (encode_line_padded_byte_margin line tape k Hr Hl) as Hpad.
  split; [exact Hpad|].
  destruct (encode_line_of_padded _ _ _ Hpad) as (p0 & p1 & Henc & _). eauto.
Qed.

Lemma encode_line_byte_margin_witness :
  encode_line_padded [xaa; xbb] tape_18mm =
    inr (replicate 13 x00 ++ [xaa; xbb] ++ [x00]) /\
  exists p0 p1,
    encode_line [xaa; xbb] tape_18mm =
    inr (p0 :: p1 ::
         packbits.encode (replicate 13 x00 ++ [xaa; xbb] ++ [x00])).
Proof.
  apply (encode_line_byte_margin [xaa; xbb] tape_18mm 1).
  - reflexivity.
  - simpl. lia.
Defined.

(** X4.  On every tape of [MEDIA_WIDTH_INFO] that has a print area, the two
    margins are equal and add up with the print area to the 128 dots of the
    raster, and every row of at most [ceil(printarea / 8)] bytes, the rows
    [print_label] cuts for that tape, is encoded without an error. *)
Theorem table_rows_encode (k : Z) (t : TapeInfo) (pa : Z) (line : bytes) :
  MEDIA_WIDTH_INFO !! k = Some t ->
  printarea t = Some pa ->
  Z.of_nat (length line) <= ceil_div8 pa ->
  (exists m, lmargin t = Some m /\ rmargin t = Some m /\ m + pa + m = 128) /\
  exists out, encode_line line t = inr out.
Proof.
  intros Hk Hpa Hl. split.
  - destruct (MEDIA_WIDTH_INFO_cases _ _ Hk)
      as [[_ ->]|(pa' & m & Hin & Hlm & Hpa' & Hrm)]; [discriminate|].
    rewrite Hpa in Hpa'. injection Hpa' as <-.
    exists m. split; [exact Hlm|]. split; [exact Hrm|].
    simpl in Hin.
    destruct Hin as [H|[H|[H|[H|[H|[H|[]]]]]]]; injection H as <- <- <-;
      reflexivity.
  - destruct (rows_encode k t pa [line] Hk Hpa) as (chunks & Hall).
    + constructor; [exact Hl | constructor].
    + inversion Hall; subst. eauto.
Qed.

Lemma table_rows_encode_witness :
  (exists m, lmargin tape_18mm = Some m /\ rmargin tape_18mm = Some m /\
             m + 112 + m = 128) /\
  exists out, encode_line (replicate 14 xff) tape_18mm = inr out.
Proof.
  apply (table_rows_encode 18 tape_18mm 112 (replicate 14 xff)).
  - reflexivity.
  - reflexivity.
  - vm_compute. discriminate.
Defined.

(** X5.  [Status(msg)] reads no byte beyond offset 26: a buffer of fewer
    than 27 bytes raises [IndexError], whatever its media code; a buffer of
    27 bytes or more raises [KeyError] when the media code at offset 10 is
    not in the table and is decoded otherwise, with the error bytes at 8
    and 9 and the table's entry as [tape_info]. *)
Theorem Status_init_outcome (msg : bytes) :
  let code := byte_val (nth 10 msg x00) in
  ((length msg < 27)%nat -> Status_init msg = inl IndexError) /\
  ((27 <= length msg)%nat -> ~ In code MEDIA_CODES ->
   Status_init msg = inl (KeyError (KInt code))) /\
  ((27 <= length msg)%nat -> In code MEDIA_CODES ->
   exists tape,
     MEDIA_WIDTH_INFO !! code = Some tape /\
     Status_init msg =
     inr (mkStatus (status_fields msg)
            (Errors_init (byte_val (nth 8 msg x00))
               (byte_val (nth 9 msg x00)))
            tape)).
Proof.
  intros code. split; [|split].
  - intros Hl. unfold Status_init. rewrite Status_fields_short by exact Hl.
    reflexivity.
  - intros Hl Hk. apply Status_init_unknown; assumption.
  - intros Hl Hk. rewrite Status_init_long by exact Hl.
    unfold MEDIA_WIDTH_INFO_getitem. fold code.
    destruct (MEDIA_WIDTH_INFO_known code Hk) as [tape Ht].
    exists tape. rewrite Ht. split; reflexivity.
Qed.

(** X6.  The decoded status depends on the 14 bytes at the offsets of
    [INFO_OFFSETS] only: two buffers of at least 27 bytes that agree there
    decode to the same status, or raise the same error. *)
Theorem Status_init_offsets_only (msg msg' : bytes) :
  (27 <= length msg)%nat ->
  (27 <= length msg')%nat ->
  Forall (fun i => msg !! i = msg' !! i) STATUS_OFFSETS ->
  Status_init msg = Status_init msg'.
Proof. apply Status_init_ext. Qed.

Lemma Status_init_offsets_only_witness :
  Status_init reply_24mm = Status_init (take 27 reply_24mm ++ [xff; xff]).
Proof.
  apply (Status_init_offsets_only reply_24mm
           (take 27 reply_24mm ++ [xff; xff])).
  - simpl. lia.
  - simpl. lia.
  - repeat constructor.
Defined.




(** X9.  Whether it returns or raises, [get_status] writes the reset and
    the status request, takes one reply off the transport and renders
    nothing; an empty reply raises "No Response from printer", one of 1 to
    31 bytes "Invalid Response from printer", and a longer one is handed to
    [Status] as it is. *)
Theorem get_status_effects (w : world) :
  exists r,
    P700.get_status w =
    (r, mkWorld
          (written w ++
           [CMD_INVALIDATE; CMD_INITIALIZE; CMD_STATUS_REQUEST])
          (tail (pending w)) (rendered w)) /\
    (next_reply w = [] -> r = inl (IOError "No Response from printer")) /\
    ((0 < length (next_reply w) < 32)%nat ->
     r = inl (IOError "Invalid Response from printer")) /\
    ((32 <= length (next_reply w))%nat -> r = Status_init (next_reply w)).
Proof.
  rewrite get_status_eq. eexists. split; [reflexivity|].
  destruct (next_reply w) as [|b reply]; simpl length.
  - split; [reflexivity|]. split; intros; lia.
  - split; [discriminate|].
    destruct (Nat.ltb_spec (S (length reply)) 32);
      split; intros; first [reflexivity | lia].
Qed.

(** X10.  [_debug_status] never writes and never renders; it takes one
    reply off the transport and returns exactly when that reply is empty or
    decodes to a status.  A stray reply of 1 to 26 bytes makes it raise
    [IndexError]. *)
Theorem debug_status_effects (w : world) :
  exists r,
    P700._debug_status w =
    (r, mkWorld (written w) (tail (pending w)) (rendered w)) /\
    (r = inr tt <->
     next_reply w = [] \/ exists s, Status_init (next_reply w) = inr s) /\
    ((0 < length (next_reply w) < 27)%nat -> r = inl IndexError).
Proof.
  rewrite debug_status_eq. eexists. split; [reflexivity|].
  destruct (next_reply w) as [|b reply] eqn:E.
  - split; [|simpl; lia]. split; [auto | reflexivity].
  - split.
    + destruct (Status_init (b :: reply)) as [e|s] eqn:Es; cbn.
      * split; [discriminate|]. intros [H|[s H]]; discriminate.
      * split; [eauto | reflexivity].
    + intros Hl. unfold Status_init.
      rewrite Status_fields_short by lia. reflexivity.
Qed.

(** X11.  If, when a job of at least one copy starts, the device has a
    reply waiting that is not empty and does not decode to a status,
    [_raw_print] raises the decoder's error at its first look at the device:
    the reset and the dynamic-mode switch have been written, nothing else,
    and the job is never ended. *)
Theorem raw_print_stray_reply_aborts
    (status : Status) (document : list bytes) (count : Z) (w : world)
    (reply : bytes) (rest : list bytes) (e : exn) :
  pending w = reply :: rest ->
  reply <> [] ->
  Status_init reply = inl e ->
  1 <= count ->
  exists w',
    P700._raw_print status document count w = (inl e, w') /\
    written w' =
      written w ++ [CMD_INVALIDATE; CMD_INITIALIZE; CMD_DYNAMIC_MODE] /\
    pending w' = rest.
Proof.
  intros Hp Hne He Hc. destruct reply as [|b reply]; [congruence|].
  rewrite (raw_print_stray_reply _ _ _ _ _ _ _ _ Hp He Hc).
  eexists. split; [reflexivity|]. split; reflexivity.
Qed.

Lemma raw_print_stray_reply_aborts_witness :
  exists w',
    P700._raw_print status_24mm [[xff]] 1 (mkWorld [] [[x00; x01]] []) =
      (inl IndexError, w') /\
    written w' =
      [] ++ [CMD_INVALIDATE; CMD_INITIALIZE; CMD_DYNAMIC_MODE] /\
    pending w' = [].
Proof.
  apply (raw_print_stray_reply_aborts status_24mm [[xff]] 1
           (mkWorld [] [[x00; x01]] []) [x00; x01] [] IndexError).
  - reflexivity.
  - discriminate.
  - reflexivity.
  - lia.
Defined.

(** X12.  On a silent device, when some line of the document does not
    encode, a job of at least one copy raises that line's error in the
    middle of the first page: the reset, the page commands and the raster
    lines before the failing one have been written, and neither the end of
    the page nor the end of the job follows. *)
Theorem raw_print_bad_line_aborts
    (status : Status) (good : list bytes) (chunks : list bytes)
    (bad : bytes) (e : exn) (rest : list bytes) (count : Z) (w : world) :
  pending w = [] ->
  Forall2 (fun line chunk =>
             encode_line line (Status_tape_info status) = inr chunk)
          good chunks ->
  encode_line bad (Status_tape_info status) = inl e ->
  1 <= count ->
  exists w',
    P700._raw_print status (good ++ bad :: rest) count w = (inl e, w') /\
    written w' =
      written w ++ [CMD_INVALIDATE; CMD_INITIALIZE] ++ FIRST_PAGE_HEAD ++
      map (cons RASTER_MARK) chunks /\
    count_writes CMD_END_PAGE (written w') =
      count_writes CMD_END_PAGE (written w) /\
    count_writes CMD_END_JOB (written w') =
      count_writes CMD_END_JOB (written w).
Proof.
  intros Hp Hall Hbad Hc.
  rewrite (raw_print_bad_line _ _ _ _ _ _ _ _ _ Hp eq_refl Hall Hbad Hc).
  eexists. split; [reflexivity|]. cbn [written].
  split; [reflexivity|].
  rewrite !count_writes_app, !count_writes_rasters by discriminate.
  split.
  - replace (count_writes CMD_END_PAGE [CMD_INVALIDATE; CMD_INITIALIZE])
      with 0%nat by reflexivity.
    replace (count_writes CMD_END_PAGE FIRST_PAGE_HEAD)
      with 0%nat by reflexivity.
    lia.
  - replace (count_writes CMD_END_JOB [CMD_INVALIDATE; CMD_INITIALIZE])
      with 0%nat by reflexivity.
    replace (count_writes CMD_END_JOB FIRST_PAGE_HEAD)
      with 0%nat by reflexivity.
    lia.
Qed.

Lemma raw_print_bad_line_aborts_witness :
  exists w',
    P700._raw_print status_24mm ([[x01]] ++ replicate 17 xff :: [[x02]]) 1
      silent_world = (inl OverflowError, w') /\
    written w' =
      written silent_world ++ [CMD_INVALIDATE; CMD_INITIALIZE] ++
      FIRST_PAGE_HEAD ++
      map (cons RASTER_MARK) [[x04; x00; xf2; x00; x00; x01]] /\
    count_writes CMD_END_PAGE (written w') =
      count_writes CMD_END_PAGE (written silent_world) /\
    count_writes CMD_END_JOB (written w') =
      count_writes CMD_END_JOB (written silent_world).
Proof.
  apply (raw_print_bad_line_aborts status_24mm [[x01]]
           [[x04; x00; xf2; x00; x00; x01]] (replicate 17 xff) OverflowError
           [[x02]] 1 silent_world).
  - reflexivity.
  - repeat constructor.
  - vm_compute. reflexivity.
  - lia.
Defined.

(** X13.  With [count <= 0] and a silent device, [_raw_print] prints no
    page and encodes no line, so it returns even for lines that do not
    encode; it still resets the printer and writes the end of the job. *)
Theorem raw_print_no_copies_writes
    (status : Status) (document : list bytes) (count : Z) (w : world) :
  pending w = [] ->
  count <= 0 ->
  exists w',
    P700._raw_print status document count w = (inr tt, w') /\
    written w' =
      written w ++ [CMD_INVALIDATE; CMD_INITIALIZE; CMD_END_JOB].
Proof.
  intros Hp Hc. rewrite (raw_print_no_copies _ _ _ _ Hp Hc).
  eexists. split; reflexivity.
Qed.

Lemma raw_print_no_copies_writes_witness :
  exists w',
    P700._raw_print status_24mm [replicate 17 xff] 0 silent_world =
      (inr tt, w') /\
    written w' =
      written silent_world ++
      [CMD_INVALIDATE; CMD_INITIALIZE; CMD_END_JOB].
Proof.
  apply (raw_print_no_copies_writes status_24mm [replicate 17 xff] 0
           silent_world).
  - reflexivity.
  - lia.
Defined.

(** X14.  On a silent device, when every line of the document encodes,
    [_raw_print] returns for every [count], having written the whole
    session (reset, pages separated by form feeds, end of job) and nothing
    else, and leaves the device silent. *)
Theorem raw_print_silent_device_returns
    (status : Status) (document chunks : list bytes) (count : Z)
    (w : world) :
  pending w = [] ->
  Forall2 (fun line chunk =>
             encode_line line (Status_tape_info status) = inr chunk)
          document chunks ->
  exists w',
    P700._raw_print status document count w = (inr tt, w') /\
    written w' =
      written w ++
      session_writes (Z.to_nat count) (map (cons RASTER_MARK) chunks) /\
    rendered w' = rendered w /\
    pending w' = [].
Proof.
  intros Hp Hall.
  destruct (raw_print_succeeds status document chunks count Hall w Hp)
    as (w' & Hrun & Hq).
  exists w'. split; [exact Hrun|].
  destruct (raw_print_inv _ _ _ _ _ _ Hall Hrun) as [Hw Hr]. auto.
Qed.

Lemma raw_print_silent_device_returns_witness :
  exists w',
    P700._raw_print status_24mm [[x01]] 3 silent_world = (inr tt, w') /\
    written w' =
      written silent_world ++
      session_writes (Z.to_nat 3)
        (map (cons RASTER_MARK) [[x04; x00; xf2; x00; x00; x01]]) /\
    rendered w' = rendered silent_world /\
    pending w' = [].
Proof.
  apply (raw_print_silent_device_returns status_24mm [[x01]]
           [[x04; x00; xf2; x00; x00; x01]] 3 silent_world).
  - reflexivity.
  - repeat constructor.
Defined.

(** X15.  [_dummy_print] touches nothing: it writes, reads and renders
    nothing.  It returns exactly when every line of the document encodes,
    and otherwise raises the error of the first line that does not. *)
Theorem dummy_print_outcome (status : Status) (document : list bytes)
    (w : world) :
  exists r,
    P700._dummy_print status document w = (r, w) /\
    (r = inr tt <->
     exists chunks,
       Forall2 (fun line chunk =>
                  encode_line line (Status_tape_info status) = inr chunk)
               document chunks) /\
    (forall good chunks bad e rest,
       document = good ++ bad :: rest ->
       Forall2 (fun line chunk =>
                  encode_line line (Status_tape_info status) = inr chunk)
               good chunks ->
       encode_line bad (Status_tape_info status) = inl e ->
       r = inl e).
Proof.
  destruct (encode_document (Status_tape_info status) document)
    as [[chunks Hall]|(good & chunks & bad & e & rest & -> & Hall & Hbad)].
  - exists (inr tt). split; [apply (dummy_print_ok _ _ _ _ Hall)|].
    split; [split; eauto|].
    intros good cs bad e rest -> Hgood Hbad.
    pose proof (dummy_print_raise status good cs bad e rest w Hgood Hbad) as H.
    rewrite (dummy_print_ok _ _ _ _ Hall) in H. discriminate H.
  - exists (inl e). split; [apply (dummy_print_raise _ _ _ _ _ _ _ Hall Hbad)|].
    split.
    + split; [discriminate|]. intros [cs Hcs].
      pose proof (dummy_print_ok _ _ _ w Hcs) as H.
      rewrite (dummy_print_raise _ _ _ _ _ _ _ Hall Hbad) in H. discriminate H.
    + intros good' cs bad' e' rest' Heq Hgood Hbad'.
      pose proof (dummy_print_raise status good' cs bad' e' rest' w Hgood Hbad')
        as H.
      rewrite <- Heq, (dummy_print_raise _ _ _ _ _ _ _ Hall Hbad) in H.
      injection H as ->. reflexivity.
Qed.

(** X16.  The dry run predicts the real one: on a silent device and for at
    least one copy, [_raw_print] returns when [_dummy_print] returns and
    raises the same error when [_dummy_print] raises. *)
Theorem dummy_print_predicts_raw_print
    (status : Status) (document : list bytes) (count : Z) (w : world) :
  pending w = [] ->
  1 <= count ->
  (P700._raw_print status document count w).1 =
  (P700._dummy_print status document w).1.
Proof.
  intros Hp Hc.
  destruct (encode_document (Status_tape_info status) document)
    as [[chunks Hall]|(good & chunks & bad & e & rest & -> & Hall & Hbad)].
  - destruct (raw_print_succeeds status document chunks count Hall w Hp)
      as (w' & -> & _).
    rewrite (dummy_print_ok _ _ _ _ Hall). reflexivity.
  - rewrite (raw_print_bad_line _ _ _ _ _ _ _ _ _ Hp eq_refl Hall Hbad Hc).
    rewrite (dummy_print_raise _ _ _ _ _ _ _ Hall Hbad). reflexivity.
Qed.

Lemma dummy_print_predicts_raw_print_witness :
  (P700._raw_print status_24mm [[x01]; replicate 17 xff] 2 silent_world).1 =
  (P700._dummy_print status_24mm [[x01]; replicate 17 xff] silent_world).1.
Proof.
  apply (dummy_print_predicts_raw_print status_24mm [[x01]; replicate 17 xff]
           2 silent_world).
  - reflexivity.
  - lia.
Defined.

(** X17.  [get_label_width] returns the width column of the table entry of
    the reply's media code, in millimetres, and [None] for the code 0 of an
    empty printer; it raises as [get_status] does for a short reply or an
    unknown code.  Either way its writes are those of [get_status]. *)
Theorem get_label_width_reply (w : world) :
  let reply := next_reply w in
  let code := byte_val (nth 10 reply x00) in
  exists r,
    P700.get_label_width w =
    (r, mkWorld
          (written w ++
           [CMD_INVALIDATE; CMD_INITIALIZE; CMD_STATUS_REQUEST])
          (tail (pending w)) (rendered w)) /\
    ((length reply < 32)%nat -> exists msg, r = inl (IOError msg)) /\
    ((32 <= length reply)%nat ->
     match MEDIA_WIDTH_INFO !! code with
     | Some tape => r = inr (width tape)
     | None => r = inl (KeyError (KInt code))
     end) /\
    ((32 <= length reply)%nat -> code = 0 -> r = inr None).
Proof.
  intros reply code. unfold P700.get_label_width, mbind, M_bind.
  rewrite get_status_eq. fold reply.
  assert (Hlong : (32 <= length reply)%nat ->
            match reply with
            | [] => inl (IOError "No Response from printer")
            | _ :: _ =>
                if (length reply <? 32)%nat
                then inl (IOError "Invalid Response from printer")
                else Status_init reply
            end =
            (tape ← MEDIA_WIDTH_INFO_getitem code;
             mret (mkStatus (status_fields reply)
                     (Errors_init (byte_val (nth 8 reply x00))
                        (byte_val (nth 9 reply x00))) tape))).
  { intros Hl. rewrite <- Status_init_long by lia.
    destruct reply as [|b reply']; [simpl in Hl; lia|].
    destruct (Nat.ltb_spec (length (b :: reply')) 32); [lia | reflexivity]. }
  destruct (Nat.le_gt_cases 32 (length reply)) as [Hl|Hl].
  - rewrite (Hlong Hl). unfold MEDIA_WIDTH_INFO_getitem.
    destruct (MEDIA_WIDTH_INFO !! code) as [tape|] eqn:Ht; cbn.
    + eexists. split; [reflexivity|]. split; [lia|]. split; [reflexivity|].
      intros _ H0. rewrite H0 in Ht. injection Ht as <-. reflexivity.
    + eexists. split; [reflexivity|]. split; [lia|]. split; [reflexivity|].
      intros _ H0. rewrite H0 in Ht. discriminate Ht.
  - clear Hlong. unfold code. clear code. clearbody reply.
    destruct reply as [|b reply'].
    + eexists. split; [reflexivity|]. split; [eauto|]. split; simpl; lia.
    + destruct (Nat.ltb_spec (length (b :: reply')) 32); [|lia].
      eexists. split; [reflexivity|]. split; [eauto|]. split; lia.
Qed.

Section print_label_properties.

Variable Image_transpose : Transpose -> Image -> Image.
Variable ImageChops_invert : Image -> Image.

(** X18.  When the device answers the status request with a ready status
    for a tape of the table and is silent afterwards, the label renders a
    "1"-mode image for the tape's print area, and the rotated, flipped and
    inverted image is no wider than that print area, [print_label] renders
    once, cuts the image bytes into rows of [ceil(width / 8)] bytes,
    encodes every row and returns, having written the status request and
    then exactly one one-copy print session. *)
Theorem print_label_prints
    (label : Label) (w : world) (reply : bytes) (status : Status)
    (pa : Z) (img : Image) :
  pending w = [reply] ->
  (32 <= length reply)%nat ->
  Status_init reply = inr status ->
  Status_ready status = true ->
  printarea (Status_tape_info status) = Some pa ->
  Label_render label (Some pa) = inr img ->
  Image_mode img = "1"%string ->
  let img' := print_image Image_transpose ImageChops_invert img in
  0 <= (Image_size img').1 <= pa ->
  exists document chunks w',
    batch_iter_bytes (Image_tobytes img') (ceil_div8 (Image_size img').1) =
      inr document /\
    Forall2 (fun line chunk =>
               encode_line line (Status_tape_info status) = inr chunk)
            document chunks /\
    P700.print_label Image_transpose ImageChops_invert label w =
      (inr tt, w') /\
    written w' =
      written w ++
      [CMD_INVALIDATE; CMD_INITIALIZE; CMD_STATUS_REQUEST] ++
      session_writes 1 (map (cons RASTER_MARK) chunks) /\
    rendered w' = rendered w ++ [Some pa] /\
    pending w' = [].
Proof.
  intros Hp Hl Hs Hready Hpa Hrender Hmode img' Hwidth.
  pose proof (get_status_decoded w reply [] status Hp Hl Hs) as Hst.
  destruct (batch_iter_bytes_rows_short (Image_tobytes img')
              (Image_size img').1) as (document & Hdoc & Hrows & _); [lia|].
  destruct (Status_init_inv _ _ Hs) as (_ & _ & _ & Htape).
  destruct (rows_encode _ _ pa document Htape Hpa) as [chunks Hall].
  { eapply Forall_impl; [exact Hrows|]. simpl. intros row Hrow.
    assert (ceil_div8 (Image_size img').1 <= ceil_div8 pa)
      by (unfold ceil_div8; apply Z.div_le_mono; lia).
    lia. }
  exists document, chunks.
  rewrite (print_label_ready _ _ _ _ _ _ Hst Hready). cbv zeta.
  rewrite Hpa, Hrender, Hmode. cbn [String.eqb Ascii.eqb Bool.eqb].
  fold img'. rewrite Hdoc. cbn [written pending rendered].
  destruct (raw_print_succeeds status document chunks 1 Hall
              (mkWorld
                 (written w ++
                  [CMD_INVALIDATE; CMD_INITIALIZE; CMD_STATUS_REQUEST])
                 [] (rendered w ++ [Some pa])) eq_refl)
    as (w' & Hrun & Hq).
  exists w'. split; [reflexivity|]. split; [exact Hall|].
  split; [exact Hrun|].
  destruct (raw_print_inv _ _ _ _ _ _ Hall Hrun) as [Hw Hr].
  cbn [written rendered] in Hw, Hr.
  rewrite Hw, Hr, <- app_assoc. auto.
Qed.

(** X19.  When the status is ready and the label renders an image whose
    mode is not "1", [print_label] raises [ValueError] right after the
    call of [render]: the writes are those of the status request, and no
    command of the print session is written. *)
Theorem print_label_invalid_mode
    (label : Label) (w w1 : world) (status : Status) (img : Image) :
  P700.get_status w = (inr status, w1) ->
  Status_ready status = true ->
  Label_render label (printarea (Status_tape_info status)) = inr img ->
  Image_mode img <> "1"%string ->
  exists w',
    P700.print_label Image_transpose ImageChops_invert label w =
      (inl (ValueError "render output has invalid mode '1'"), w') /\
    written w' =
      written w ++ [CMD_INVALIDATE; CMD_INITIALIZE; CMD_STATUS_REQUEST] /\
    rendered w' = rendered w ++ [printarea (Status_tape_info status)].
Proof.
  intros Hst Hready Hrender Hmode.
  rewrite (print_label_ready _ _ _ _ _ _ Hst Hready). cbv zeta.
  rewrite Hrender.
  destruct (String.eqb_spec (Image_mode img) "1"); [contradiction|].
  eexists. split; [reflexivity|]. cbn [written rendered].
  rewrite get_status_eq in Hst. injection Hst as _ <-. split; reflexivity.
Qed.

(** X20.  The sentinel of an empty printer does not stop [print_label]:
    for a reply with the media code 0 and no error bit the status is
    ready, [render] is called with the height [None], and as soon as the
    image has a row to print the job starts and then raises [TypeError] at
    the first raster line, after the reset and the commands of the first
    page have been written and without an end of the job. *)
Theorem print_label_no_tape
    (label : Label) (w : world) (reply : bytes) (img : Image) :
  pending w = [reply] ->
  (32 <= length reply)%nat ->
  nth 8 reply x00 = x00 -> nth 9 reply x00 = x00 -> nth 10 reply x00 = x00 ->
  Label_render label None = inr img ->
  Image_mode img = "1"%string ->
  let img' := print_image Image_transpose ImageChops_invert img in
  0 < (Image_size img').1 ->
  Image_tobytes img' <> [] ->
  exists w',
    P700.print_label Image_transpose ImageChops_invert label w =
      (inl TypeError, w') /\
    written w' =
      written w ++
      [CMD_INVALIDATE; CMD_INITIALIZE; CMD_STATUS_REQUEST] ++
      [CMD_INVALIDATE; CMD_INITIALIZE] ++ FIRST_PAGE_HEAD /\
    rendered w' = rendered w ++ [None].
Proof.
  intros Hp Hl H8 H9 H10 Hrender Hmode img' Hwidth Hbytes.
  assert (Hs : Status_init reply =
               inr (mkStatus (status_fields reply) (Errors_init 0 0) NO_TAPE)).
  { rewrite Status_init_long by lia. rewrite H8, H9, H10. reflexivity. }
  pose proof (get_status_decoded w reply [] _ Hp Hl Hs) as Hst.
  assert (Hready : Status_ready
                     (mkStatus (status_fields reply) (Errors_init 0 0)
                        NO_TAPE) = true)
    by (rewrite Status_ready_flags; reflexivity).
  rewrite (print_label_ready _ _ _ _ _ _ Hst Hready). cbv zeta.
  cbn [Status_tape_info NO_TAPE printarea].
  rewrite Hrender, Hmode. cbn [String.eqb Ascii.eqb Bool.eqb].
  fold img'. unfold batch_iter_bytes.
  assert (Hsize : 0 < ceil_div8 (Image_size img').1).
  { unfold ceil_div8.
    assert (1 <= ((Image_size img').1 + 7) / 8)
      by (apply Z.div_le_lower_bound; lia). lia. }
  destruct (ceil_div8 (Image_size img').1 <? 0) eqn:E; [lia|].
  unfold mret at 1, res_ret.
  rewrite batch_chunks_step by (lia || assumption).
  cbn [written pending rendered].
  erewrite (raw_print_bad_line _ _ 1 _ [] [] _ TypeError);
    [|reflexivity|reflexivity|constructor|reflexivity|lia].
  eexists. split; [reflexivity|]. cbn [written rendered map].
  rewrite app_nil_r, <- !app_assoc. split; reflexivity.
Qed.

End print_label_properties.

Lemma print_label_prints_witness :
  exists document chunks w',
    batch_iter_bytes [x00] (ceil_div8 8) = inr document /\
    Forall2 (fun line chunk => encode_line line tape_24mm = inr chunk)
            document chunks /\
    P700.print_label (fun _ img => img) (fun img => img) blank_label
      (mkWorld [] [reply_24mm] []) = (inr tt, w') /\
    written w' =
      [] ++ [CMD_INVALIDATE; CMD_INITIALIZE; CMD_STATUS_REQUEST] ++
      session_writes 1 (map (cons RASTER_MARK) chunks) /\
    rendered w' = [] ++ [Some 128] /\
    pending w' = [].
Proof.
  apply (print_label_prints (fun _ img => img) (fun img => img) blank_label
           (mkWorld [] [reply_24mm] []) reply_24mm status_24mm 128
           (mkImage "1" (8, 1) [x00])).
  - reflexivity.
  - simpl. lia.
  - vm_compute. reflexivity.
  - vm_compute. reflexivity.
  - reflexivity.
  - reflexivity.
  - reflexivity.
  - simpl. lia.
Defined.

Lemma print_label_invalid_mode_witness :
  exists w',
    P700.print_label (fun _ img => img) (fun img => img) grey_label
      (mkWorld [] [reply_24mm] []) =
      (inl (ValueError "render output has invalid mode '1'"), w') /\
    written w' =
      [] ++ [CMD_INVALIDATE; CMD_INITIALIZE; CMD_STATUS_REQUEST] /\
    rendered w' = [] ++ [Some 128].
Proof.
  apply (print_label_invalid_mode (fun _ img => img) (fun img => img)
           grey_label (mkWorld [] [reply_24mm] [])
           (mkWorld [CMD_INVALIDATE; CMD_INITIALIZE; CMD_STATUS_REQUEST] [] [])
           status_24mm (mkImage "L" (8, 1) [x00])).
  - vm_compute. reflexivity.
  - vm_compute. reflexivity.
  - reflexivity.
  - discriminate.
Defined.

Lemma print_label_no_tape_witness :
  exists w',
    P700.print_label (fun _ img => img) (fun img => img) blank_label
      (mkWorld [] [reply_no_tape] []) = (inl TypeError, w') /\
    written w' =
      [] ++ [CMD_INVALIDATE; CMD_INITIALIZE; CMD_STATUS_REQUEST] ++
      [CMD_INVALIDATE; CMD_INITIALIZE] ++ FIRST_PAGE_HEAD /\
    rendered w' = [] ++ [None].
Proof.
  apply (print_label_no_tape (fun _ img => img) (fun img => img) blank_label
           (mkWorld [] [reply_no_tape] []) reply_no_tape
           (mkImage "1" (8, 1) [x00])).
  - reflexivity.
  - simpl. lia.
  - reflexivity.
  - reflexivity.
  - reflexivity.
  - reflexivity.
  - reflexivity.
  - simpl. lia.
  - discriminate.
Defined.
